(** * Sales-margin pipeline: price_analysis.py and analyze_products.py

    A shallow embedding of the tabular pipeline of the two scripts
    (load, forward-fill, filter, coerce, group, aggregate, classify,
    export) together with the properties checked against it.

    Numbers.  A pandas float cell is a finite number, an infinity or NaN
    (the missing-value marker of a float column).  Finite values are kept
    as exact rationals ([Qc]), so every sum and quotient below is the one
    of exact arithmetic; rounding error of binary floating point and the
    sign of zero are outside the model. *)

From Stdlib Require Import Ascii String.
From Stdlib Require Import List Bool Arith Lia ZArith QArith Qcanon Lqa.
From Stdlib Require Import Permutation Sorted DecimalString DecimalZ.
Import ListNotations.

Local Open Scope Qc_scope.

(* ================================================================== *)
(** * Part I.  Definitions                                              *)
(* ================================================================== *)

(** ** Float values *)

Module Num.

Inductive fnum : Type :=
| Fin (q : Qc)
| PInf
| NInf
| NaN.

Definition of_Z (z : Z) : fnum := Fin (Q2Qc (inject_Z z)).
Definition of_nat (n : nat) : fnum := of_Z (Z.of_nat n).
(** [n / d] as a finite value, e.g. [ratio 18 100] for 0.18. *)
Definition ratio (n : Z) (d : positive) : fnum := Fin (Q2Qc (Qmake n d)).

Definition zero : fnum := of_Z 0.

Definition isna (x : fnum) : bool :=
  match x with NaN => true | _ => false end.
Definition notna (x : fnum) : bool := negb (isna x).

Definition is_finite (x : fnum) : bool :=
  match x with Fin _ => true | _ => false end.

Definition fadd (x y : fnum) : fnum :=
  match x, y with
  | NaN, _ | _, NaN => NaN
  | Fin a, Fin b => Fin (a + b)
  | PInf, NInf | NInf, PInf => NaN
  | PInf, _ | _, PInf => PInf
  | NInf, _ | _, NInf => NInf
  end.

Definition fmul (x y : fnum) : fnum :=
  match x, y with
  | NaN, _ | _, NaN => NaN
  | Fin a, Fin b => Fin (a * b)
  | Fin a, PInf | PInf, Fin a =>
      match a ?= 0 with Eq => NaN | Gt => PInf | Lt => NInf end
  | Fin a, NInf | NInf, Fin a =>
      match a ?= 0 with Eq => NaN | Gt => NInf | Lt => PInf end
  | PInf, PInf | NInf, NInf => PInf
  | PInf, NInf | NInf, PInf => NInf
  end.

(** Float division: a finite value over zero is an infinity of the sign
    of the numerator, zero over zero is NaN, no exception is raised. *)
Definition fdiv (x y : fnum) : fnum :=
  match x, y with
  | NaN, _ | _, NaN => NaN
  | Fin a, Fin b =>
      match b ?= 0 with
      | Eq => match a ?= 0 with Eq => NaN | Gt => PInf | Lt => NInf end
      | _ => Fin (a / b)
      end
  | Fin _, PInf | Fin _, NInf => Fin 0
  | PInf, Fin b => match b ?= 0 with Lt => NInf | _ => PInf end
  | NInf, Fin b => match b ?= 0 with Lt => PInf | _ => NInf end
  | PInf, PInf | PInf, NInf | NInf, PInf | NInf, NInf => NaN
  end.

(** Ordered comparison; [None] when an operand is NaN, so that every
    comparison operator below answers [false] on NaN as in Python. *)
Definition fcmp (x y : fnum) : option comparison :=
  match x, y with
  | NaN, _ | _, NaN => None
  | Fin a, Fin b => Some (a ?= b)
  | PInf, PInf | NInf, NInf => Some Eq
  | PInf, _ | _, NInf => Some Gt
  | NInf, _ | _, PInf => Some Lt
  end.

Definition fle (x y : fnum) : bool :=
  match fcmp x y with Some Lt | Some Eq => true | _ => false end.
Definition flt (x y : fnum) : bool :=
  match fcmp x y with Some Lt => true | _ => false end.
Definition fge (x y : fnum) : bool :=
  match fcmp x y with Some Gt | Some Eq => true | _ => false end.
Definition fgt (x y : fnum) : bool :=
  match fcmp x y with Some Gt => true | _ => false end.
Definition feqb (x y : fnum) : bool :=
  match x, y with
  | NaN, NaN => true
  | _, _ => match fcmp x y with Some Eq => true | _ => false end
  end.

(** Sum of a column as written ([fsum]) and with pandas' default
    [skipna=True] ([sum_skipna]); the empty sum is 0. *)
Definition fsum (l : list fnum) : fnum := fold_right fadd zero l.
Definition sum_skipna (l : list fnum) : fnum := fsum (filter notna l).

(** [mean] with [skipna=True]: NaN for a column without any value. *)
Definition mean (l : list fnum) : fnum :=
  let v := filter notna l in
  fdiv (fsum v) (of_nat (length v)).

(** Round half to even at the given number of decimals, numpy's rule
    behind [Series.round]. *)
Definition round_half_even (q : Q) : Z :=
  let n := Qnum q in
  let d := Zpos (Qden q) in
  let f := (n / d)%Z in
  match (2 * (n - f * d) ?= d)%Z with
  | Lt => f
  | Gt => (f + 1)%Z
  | Eq => if Z.even f then f else (f + 1)%Z
  end.

Definition round2 (x : fnum) : fnum :=
  match x with
  | Fin q => Fin (Q2Qc (Qmake (round_half_even (Qmult q (inject_Z 100))) 100))
  | _ => x
  end.

End Num.
Export Num.

(** ** Tables: the pandas operations the scripts use *)

Module Frame.

Section Sorting.
Context {A : Type} (leb : A -> A -> bool).

Fixpoint insert (x : A) (l : list A) : list A :=
  match l with
  | [] => [x]
  | y :: t => if leb x y then x :: l else y :: insert x t
  end.

Definition isort (l : list A) : list A := fold_right insert [] l.
End Sorting.

Section Distinct.
Context {A : Type} (eqb : A -> A -> bool).

Fixpoint dedup (l : list A) : list A :=
  match l with
  | [] => []
  | x :: t => if existsb (eqb x) t then dedup t else x :: dedup t
  end.
End Distinct.

Definition is_some {A : Type} (o : option A) : bool :=
  match o with Some _ => true | None => false end.

(** The non-null entries of a column, in row order. *)
Fixpoint dropna {A : Type} (l : list (option A)) : list A :=
  match l with
  | [] => []
  | Some a :: t => a :: dropna t
  | None :: t => dropna t
  end.

(** [Series.nunique()]: number of distinct non-null entries. *)
Definition nunique (l : list (option string)) : nat :=
  length (dedup String.eqb (dropna l)).

(** [Series.ffill()]: [last] is the most recent non-null entry seen. *)
Fixpoint ffill_from {A : Type} (last : option A) (l : list (option A))
  : list (option A) :=
  match l with
  | [] => []
  | x :: t =>
      let v := match x with Some _ => x | None => last end in
      v :: ffill_from v t
  end.

Definition ffill {A : Type} (l : list (option A)) : list (option A) :=
  ffill_from None l.

(** [Series.astype(str)] on a column of strings and nulls: a null prints
    as the three letters of NaN. *)
Definition astype_str (c : option string) : string :=
  match c with Some s => s | None => "nan"%string end.

(** [pat in s]: [pat] occurs in [s] as a contiguous substring. *)
Fixpoint str_contains (pat s : string) : bool :=
  if String.prefix pat s then true
  else match s with
       | EmptyString => false
       | String _ t => str_contains pat t
       end.

(** Row orders of [sort_values]: NaN keys go last in both directions. *)
Definition asc_leb (x y : fnum) : bool :=
  match x, y with
  | _, NaN => true
  | NaN, _ => false
  | _, _ => fle x y
  end.

Definition desc_leb (x y : fnum) : bool :=
  match x, y with
  | _, NaN => true
  | NaN, _ => false
  | _, _ => fge x y
  end.

(** [sort_values(by, ascending)].  pandas leaves the order of rows with
    equal keys open; here they keep their order. *)
Definition sort_values {R : Type} (by_ : R -> fnum) (ascending : bool)
    (df : list R) : list R :=
  isort (fun a b => (if ascending then asc_leb else desc_leb) (by_ a) (by_ b)) df.

(** [Series.median()] with [skipna=True]: middle value of the sorted
    non-missing entries, the mean of the two middle ones for an even
    count, NaN for none. *)
Definition median (l : list fnum) : fnum :=
  let v := isort asc_leb (filter notna l) in
  let n := length v in
  if Nat.eqb n 0 then NaN
  else if Nat.even n
       then fdiv (fadd (nth (Nat.div n 2 - 1) v NaN) (nth (Nat.div n 2) v NaN))
                 (of_Z 2)
       else nth (Nat.div n 2) v NaN.

(** [DataFrame.groupby(keys)] with the defaults [sort=True] and
    [dropna=True]: one group per distinct non-null key, groups in key
    order, rows of a group in row order; a row whose key is null is in no
    group. *)
Section GroupBy.
Context {R K : Type} (key_eqb key_leb : K -> K -> bool) (by_ : R -> option K).

Definition group_keys (df : list R) : list K :=
  isort key_leb (dedup key_eqb (dropna (map by_ df))).

Definition in_group (k : K) (r : R) : bool :=
  match by_ r with Some k' => key_eqb k k' | None => false end.

Definition groupby (df : list R) : list (K * list R) :=
  map (fun k => (k, filter (in_group k) df)) (group_keys df).
End GroupBy.

Definition pair_eqb (a b : string * string) : bool :=
  String.eqb (fst a) (fst b) && String.eqb (snd a) (snd b).

Definition pair_leb (a b : string * string) : bool :=
  match String.compare (fst a) (fst b) with
  | Lt => true
  | Gt => false
  | Eq => String.leb (snd a) (snd b)
  end.

(** *** Rows

    A spreadsheet cell of a numeric column as [read_excel] delivers it:
    a number, a text, or nothing. *)
Inductive cell : Type :=
| CNum (x : fnum)
| CText (s : string)
| CBlank.

(** One sheet row.  Columns: 一级分类, 商品名称, 求和项:实际金额,
    求和项:销售毛利, 求和项:标品毛利率, 求和项:贡献值. *)
Record raw_row : Type := {
  x_category : option string;
  x_product_name : option string;
  x_sales_amount : cell;
  x_gross_profit : cell;
  x_margin_rate : cell;
  x_contribution_value : cell
}.

(** A sheet: the column names present and the rows.  The value a
    [raw_row] carries for a column that is not in [columns] is never
    read. *)
Record sheet : Type := {
  columns : list string;
  rows : list raw_row
}.

(** One row with numeric columns of float type. *)
Record row : Type := {
  r_category : option string;
  r_product_name : option string;
  r_sales_amount : fnum;
  r_gross_profit : fnum;
  r_margin_rate : fnum;
  r_contribution_value : fnum
}.

Definition set_category (c : option string) (x : raw_row) : raw_row :=
  {| x_category := c;
     x_product_name := x_product_name x;
     x_sales_amount := x_sales_amount x;
     x_gross_profit := x_gross_profit x;
     x_margin_rate := x_margin_rate x;
     x_contribution_value := x_contribution_value x |}.

(** [df[col] = values]: column assignment, row by row. *)
Fixpoint assign_category (df : list raw_row) (values : list (option string))
  : list raw_row :=
  match df, values with
  | x :: df', c :: values' => set_category c x :: assign_category df' values'
  | _, _ => []
  end.

(** *** Exceptions *)
Inductive exn : Type :=
| FileNotFoundError
| SheetNotFound
| KeyError (column : string).

Inductive result (A : Type) : Type :=
| Ok (a : A)
| Raise (e : exn).
Arguments Ok {A} a.
Arguments Raise {A} e.

Definition bind {A B : Type} (m : result A) (k : A -> result B) : result B :=
  match m with
  | Ok a => k a
  | Raise e => Raise e
  end.

(** [df[col]]: raises [KeyError] for a column the frame does not have. *)
Definition getitem (df : sheet) (col : string) : result unit :=
  if existsb (String.eqb col) (columns df) then Ok tt else Raise (KeyError col).

End Frame.
Export Frame.

Notation "x <- m ;; k" := (bind m (fun x => k))
  (at level 61, m at next level, right associativity).

(** ** price_analysis.py *)

Module Cat.
(** A row of [cat_summary]. *)
Record row : Type := {
  category : string;
  sales_amount : fnum;
  gross_profit : fnum;
  avg_margin_rate : fnum;
  median_margin_rate : fnum;
  sku_count : nat;
  realized_margin_rate : fnum
}.
End Cat.

Module Prod.
(** A row of [product_summary]. *)
Record row : Type := {
  category : string;
  product_name : string;
  sales_amount : fnum;
  gross_profit : fnum;
  avg_margin_rate : fnum;
  realized_margin_rate : fnum
}.
End Prod.

Module PriceAnalysis.

Local Open Scope string_scope.

Definition col_category : string := "一级分类".
Definition col_product_name : string := "商品名称".
Definition col_sales_amount : string := "求和项:实际金额".
Definition col_gross_profit : string := "求和项:销售毛利".
Definition col_margin_rate : string := "求和项:标品毛利率".
Definition col_contribution_value : string := "求和项:贡献值".

Definition NUMERIC_COLS : list string :=
  [col_sales_amount; col_gross_profit; col_margin_rate; col_contribution_value].

(** The marker of a category subtotal row. *)
Definition marker_summary : string := "汇总".

Record Args : Type := {
  input : string;
  sheet_name : string;
  out : string;
  top_n : nat
}.

Section Loader.

(** pandas' reading of a text as a number ([None]: not a number); the
    parser itself is library code. *)
Variable parse_number : string -> option fnum.

(** The workbooks on disk: [read_excel path sheet_name]. *)
Variable read_excel : string -> string -> result sheet.

(** [pd.to_numeric(_, errors="coerce")] on one cell. *)
Definition to_numeric (c : cell) : fnum :=
  match c with
  | CNum x => x
  | CText s => match parse_number s with Some x => x | None => NaN end
  | CBlank => NaN
  end.

(** The loop over [NUMERIC_COLS], seen from one row: each of the four
    columns is converted on its own. *)
Definition coerce (x : raw_row) : Frame.row :=
  {| r_category := x_category x;
     r_product_name := x_product_name x;
     r_sales_amount := to_numeric (x_sales_amount x);
     r_gross_profit := to_numeric (x_gross_profit x);
     r_margin_rate := to_numeric (x_margin_rate x);
     r_contribution_value := to_numeric (x_contribution_value x) |}.

(** [for col in NUMERIC_COLS: df[col]]: the first column that is absent
    raises. *)
Fixpoint getitems (df : sheet) (cols : list string) : result unit :=
  match cols with
  | [] => Ok tt
  | c :: cols' => _ <- getitem df c ;; getitems df cols'
  end.

Definition has_product_name (x : raw_row) : bool := is_some (x_product_name x).

Definition not_summary (x : raw_row) : bool :=
  negb (str_contains marker_summary (astype_str (x_category x))).

(** The three cleaning steps on the rows, in the order of the code. *)
Definition fill_rows (l : list raw_row) : list raw_row :=
  assign_category l (ffill (map x_category l)).

Definition clean_rows (l : list raw_row) : list raw_row :=
  filter not_summary (filter has_product_name (fill_rows l)).

Definition load_data (path sheet : string) : result (list Frame.row) :=
  df <- read_excel path sheet ;;
  _ <- getitem df col_category ;;
  _ <- getitem df col_product_name ;;
  _ <- getitems df NUMERIC_COLS ;;
  Ok (map coerce (clean_rows (rows df))).

End Loader.

(** *** summarize *)

Definition product_key (r : Frame.row) : option (string * string) :=
  match r_category r, r_product_name r with
  | Some c, Some p => Some (c, p)
  | _, _ => None
  end.

Definition cat_agg (g : string * list Frame.row) : Cat.row :=
  let sa := sum_skipna (map r_sales_amount (snd g)) in
  let gp := sum_skipna (map r_gross_profit (snd g)) in
  {| Cat.category := fst g;
     Cat.sales_amount := sa;
     Cat.gross_profit := gp;
     Cat.avg_margin_rate := mean (map r_margin_rate (snd g));
     Cat.median_margin_rate := median (map r_margin_rate (snd g));
     Cat.sku_count := nunique (map r_product_name (snd g));
     Cat.realized_margin_rate := fdiv gp sa |}.

Definition prod_agg (g : (string * string) * list Frame.row) : Prod.row :=
  let sa := sum_skipna (map r_sales_amount (snd g)) in
  let gp := sum_skipna (map r_gross_profit (snd g)) in
  {| Prod.category := fst (fst g);
     Prod.product_name := snd (fst g);
     Prod.sales_amount := sa;
     Prod.gross_profit := gp;
     Prod.avg_margin_rate := mean (map r_margin_rate (snd g));
     Prod.realized_margin_rate := fdiv gp sa |}.

(** [replace([pd.NA, pd.NaT, inf, -inf], 0)] on one value of a float
    column: the two infinities are replaced.  A float column holds
    neither [pd.NA] nor [pd.NaT], so these two entries of the list match
    nothing there, and a missing value (NaN) stays as it is. *)
Definition replace0 (x : fnum) : fnum :=
  match x with
  | PInf | NInf => zero
  | Fin _ | NaN => x
  end.

(** The replacement runs over every column of the frame; the two key
    columns hold strings, none of which is in the list. *)
Definition replace_row (p : Prod.row) : Prod.row :=
  {| Prod.category := Prod.category p;
     Prod.product_name := Prod.product_name p;
     Prod.sales_amount := replace0 (Prod.sales_amount p);
     Prod.gross_profit := replace0 (Prod.gross_profit p);
     Prod.avg_margin_rate := replace0 (Prod.avg_margin_rate p);
     Prod.realized_margin_rate := replace0 (Prod.realized_margin_rate p) |}.

Definition cat_summary (df : list Frame.row) : list Cat.row :=
  map cat_agg (groupby String.eqb String.leb r_category df).

Definition product_summary (df : list Frame.row) : list Prod.row :=
  map replace_row (map prod_agg (groupby pair_eqb pair_leb product_key df)).

Definition summarize (df : list Frame.row) : list Cat.row * list Prod.row :=
  (cat_summary df, product_summary df).

(** *** export_tables *)

Definition high_margin (product_summary : list Prod.row) : list Prod.row :=
  sort_values Prod.realized_margin_rate false
    (filter (fun p => fge (Prod.realized_margin_rate p) (ratio 18 100)) product_summary).

Definition low_margin (product_summary : list Prod.row) : list Prod.row :=
  sort_values Prod.sales_amount false
    (filter (fun p => fle (Prod.realized_margin_rate p) (ratio 5 100)) product_summary).

Definition zero_margin (product_summary : list Prod.row) : list Prod.row :=
  sort_values Prod.sales_amount false
    (filter (fun p => fle (Prod.realized_margin_rate p) (of_Z 0)) product_summary).

(** What a run leaves behind, in order. *)
Inductive effect : Type :=
| MkDir (dir : string)
| WriteCatCsv (file : string) (table : list Cat.row)
| WriteProdCsv (file : string) (table : list Prod.row)
| SaveFig (file : string)
| Print (dir : string).

Definition in_dir (dir name : string) : string := dir ++ "/" ++ name.

Definition export_tables (cat_summary : list Cat.row)
    (product_summary : list Prod.row) (out_dir : string) : list effect :=
  [ WriteCatCsv (in_dir out_dir "category_summary.csv") cat_summary;
    WriteProdCsv (in_dir out_dir "product_summary.csv") product_summary;
    WriteProdCsv (in_dir out_dir "high_margin_products.csv") (high_margin product_summary);
    WriteProdCsv (in_dir out_dir "low_margin_products.csv") (low_margin product_summary);
    WriteProdCsv (in_dir out_dir "zero_margin_products.csv") (zero_margin product_summary) ].

Definition is_write (e : effect) : bool :=
  match e with
  | WriteCatCsv _ _ | WriteProdCsv _ _ | SaveFig _ => true
  | MkDir _ | Print _ => false
  end.

Section Main.
Variable parse_number : string -> option fnum.
Variable read_excel : string -> string -> result sheet.

(** [main]: the effects so far and how the run ends.  The three plot
    functions only save one figure each. *)
Definition main (args : Args) : list effect * result unit :=
  let out_dir := out args in
  let fx := [MkDir out_dir] in
  match load_data parse_number read_excel (input args) (sheet_name args) with
  | Raise e => (fx, Raise e)
  | Ok df =>
      let '(cat_summary, product_summary) := summarize df in
      ((fx ++ export_tables cat_summary product_summary out_dir
           ++ [ SaveFig (in_dir out_dir "category_margin.png");
                SaveFig (in_dir out_dir "price_trend.png");
                SaveFig (in_dir out_dir "margin_distribution.png");
                Print out_dir ])%list,
       Ok tt)
  end.
End Main.

End PriceAnalysis.

(** ** analyze_products.py *)

Module AnalyzeProducts.

Local Open Scope string_scope.

Definition marker_summary : string := "汇总".
Definition marker_total : string := "总计".

(** A row of [category_analysis]; columns 一级分类, 金额, 毛利, 毛利率
    (the rate in percent, two decimals). *)
Record row : Type := {
  category : string;
  amount : fnum;
  profit : fnum;
  rate : fnum
}.

(** [str.contains('汇总|总计', na=False)]: either marker occurs; a null
    entry counts as no match. *)
Definition contains_marker (c : option string) : bool :=
  match c with
  | Some s => str_contains marker_summary s || str_contains marker_total s
  | None => false
  end.

(** The frame this script works on is the sheet as read, without any
    conversion; its numeric columns are taken as float columns (a blank
    cell is NaN).  [clean] pairs every kept row with its entry of the
    new column 一级分类_filled. *)
Definition clean (df : list Frame.row) : list (Frame.row * option string) :=
  let filled := ffill (map r_category df) in
  let df1 := filter (fun rc => is_some (r_product_name (fst rc))) (combine df filled) in
  let df2 := filter (fun rc => notna (r_sales_amount (fst rc))) df1 in
  filter (fun rc => negb (contains_marker (snd rc))) df2.

Definition agg (g : string * list (Frame.row * option string)) : row :=
  let a := sum_skipna (map (fun rc => r_sales_amount (fst rc)) (snd g)) in
  let p := sum_skipna (map (fun rc => r_gross_profit (fst rc)) (snd g)) in
  {| category := fst g;
     amount := a;
     profit := p;
     rate := round2 (fmul (fdiv p a) (of_Z 100)) |}.

Definition analyze_by_category (df : list Frame.row) : list row :=
  let df_clean := clean df in
  let category_analysis := map agg (groupby String.eqb String.leb snd df_clean) in
  let category_analysis := filter (fun r => fgt (amount r) (of_Z 0)) category_analysis in
  sort_values amount false category_analysis.

(** The five lists of [issues], keyed 超高毛利率品类, 超低毛利率品类,
    零负毛利品类, 大而不赚品类 and 潜力品类.  An entry is the row it was
    made from; the text formatting of its three numbers is left out. *)
Record issues : Type := {
  high_margin : list row;
  low_margin : list row;
  zero_margin : list row;
  big_low : list row;
  small_high : list row
}.

Definition no_issues : issues :=
  {| high_margin := []; low_margin := []; zero_margin := [];
     big_low := []; small_high := [] |}.

Definition identify_issues (category_analysis : option (list row)) : issues :=
  match category_analysis with
  | None => no_issues
  | Some t =>
      let median_amount := median (map amount t) in
      {| high_margin := filter (fun r => fge (rate r) (of_Z 18)) t;
         low_margin := filter (fun r => fle (rate r) (of_Z 5)) t;
         zero_margin := filter (fun r => fle (rate r) (of_Z 2)) t;
         big_low := filter (fun r => fge (amount r) median_amount
                                     && flt (rate r) (of_Z 10)) t;
         small_high := filter (fun r => flt (amount r) median_amount
                                        && fge (rate r) (of_Z 15)) t |}
  end.

End AnalyzeProducts.

(** ** Reference notions

    What the properties below compare the code with. *)

Module Reference.

(** The nearest non-null entry at or before the end of a column
    prefix: the last non-null entry of [l], if any. *)
Fixpoint last_valid {A : Type} (l : list (option A)) : option A :=
  match l with
  | [] => None
  | x :: t => match last_valid t with Some v => Some v | None => x end
  end.

(** The key columns of a sheet row: the cleaning filters read nothing
    else. *)
Definition keys_of (x : raw_row) : option string * option string :=
  (x_category x, x_product_name x).


(** The rows of a frame that fall under one category key. *)
Definition rows_of_category (df : list Frame.row) (c : string) : list Frame.row :=
  filter (in_group String.eqb r_category c) df.

Definition rows_of_product (df : list Frame.row) (c p : string) : list Frame.row :=
  filter (in_group pair_eqb PriceAnalysis.product_key (c, p)) df.

(** The columns [load_data] reads. *)
Definition required_columns : list string :=
  PriceAnalysis.col_category :: PriceAnalysis.col_product_name
    :: PriceAnalysis.NUMERIC_COLS.





Definition row_keys (r : Frame.row) : option string * option string :=
  (r_category r, r_product_name r).


(** The rows whose key is one of [ks]. *)
Definition key_among {R K : Type} (key_eqb : K -> K -> bool) (by_ : R -> option K)
    (ks : list K) (r : R) : bool :=
  match by_ r with
  | Some k' => existsb (fun k => key_eqb k k') ks
  | None => false
  end.

(** The sum of one column over the rows of a frame. *)
Definition column_sum {R : Type} (f : R -> fnum) (l : list R) : fnum :=
  sum_skipna (map f l).

End Reference.
Export Reference.


(** ** Sample inputs *)

Module Samples.

Local Open Scope string_scope.

(** A reading of texts as numbers for the samples: unsigned decimal
    integers, a fragment of what pandas accepts. *)
Definition digit_value (c : ascii) : option Z :=
  let n := nat_of_ascii c in
  if (48 <=? n)%nat && (n <=? 57)%nat then Some (Z.of_nat (n - 48)) else None.

Fixpoint digits_value (s : string) (acc : Z) : option Z :=
  match s with
  | EmptyString => Some acc
  | String c t =>
      match digit_value c with
      | Some d => digits_value t (acc * 10 + d)%Z
      | None => None
      end
  end.

Definition parse_digits (s : string) : option fnum :=
  match s with
  | EmptyString => None
  | _ => option_map of_Z (digits_value s 0%Z)
  end.

Definition all_columns : list string :=
  PriceAnalysis.col_category :: PriceAnalysis.col_product_name
    :: PriceAnalysis.NUMERIC_COLS.

Definition mk_raw (c p : option string) (a g m : cell) : raw_row :=
  {| x_category := c; x_product_name := p; x_sales_amount := a;
     x_gross_profit := g; x_margin_rate := m; x_contribution_value := CBlank |}.

Definition mk_row (c p : option string) (a g m : fnum) : Frame.row :=
  {| r_category := c; r_product_name := p; r_sales_amount := a;
     r_gross_profit := g; r_margin_rate := m; r_contribution_value := NaN |}.

Definition num (z : Z) : cell := CNum (of_Z z).

(** A workbook that holds the one given sheet under every name. *)
Definition single (s : sheet) : string -> string -> result sheet :=
  fun _ _ => Ok s.

Definition args0 : PriceAnalysis.Args :=
  {| PriceAnalysis.input := "sales.xlsx"; PriceAnalysis.sheet_name := "销售数据";
     PriceAnalysis.out := "outputs"; PriceAnalysis.top_n := 20 |}.

(** A sheet whose first data row comes before any category label. *)
Definition sheet_leading_null : sheet :=
  {| columns := all_columns;
     rows := [ mk_raw None (Some "p0") (num 5) (num 1) CBlank;
               mk_raw (Some "A") None CBlank CBlank CBlank;
               mk_raw None (Some "p1") (num 10) (num 2) CBlank ] |}.

Definition cleaned_leading_null : list Frame.row :=
  [ mk_row None (Some "p0") (of_Z 5) (of_Z 1) NaN;
    mk_row (Some "A") (Some "p1") (of_Z 10) (of_Z 2) NaN ].



Definition cleaned_texts : list Frame.row :=
  [ mk_row (Some "A") (Some "p1") (of_Z 100) (of_Z 5) NaN;
    mk_row (Some "A") (Some "p2") NaN (of_Z 7) NaN ].

(** A sheet without the product-name column. *)
Definition sheet_no_product_name : sheet :=
  {| columns := PriceAnalysis.col_category :: PriceAnalysis.NUMERIC_COLS;
     rows := [ mk_raw (Some "A") None (num 100) (num 5) CBlank ] |}.

(** A sheet with a subtotal row and a grand-total row that both carry a
    product name, and the frame of the same sheet with float columns. *)
Definition sheet_totals : sheet :=
  {| columns := all_columns;
     rows := [ mk_raw (Some "A") (Some "p1") (num 100) (num 5) CBlank;
               mk_raw (Some "A 汇总") (Some "p1") (num 100) (num 5) CBlank;
               mk_raw (Some "总计") (Some "p1") (num 100) (num 5) CBlank ] |}.

Definition cleaned_totals : list Frame.row :=
  [ mk_row (Some "A") (Some "p1") (of_Z 100) (of_Z 5) NaN;
    mk_row (Some "总计") (Some "p1") (of_Z 100) (of_Z 5) NaN ].

Definition frame_totals : list Frame.row :=
  [ mk_row (Some "A") (Some "p1") (of_Z 100) (of_Z 5) NaN;
    mk_row (Some "A 汇总") (Some "p1") (of_Z 100) (of_Z 5) NaN;
    mk_row (Some "总计") (Some "p1") (of_Z 100) (of_Z 5) NaN ].

(** A cleaned frame with one product at a margin of one percent. *)
Definition frame_one_percent : list Frame.row :=
  [ mk_row (Some "A") (Some "p1") (of_Z 100) (of_Z 1) (ratio 1 100) ].

(** Category rows for the classifier: X has the amount 100 and the rate
    5 percent. *)
Definition cat_x : AnalyzeProducts.row :=
  {| AnalyzeProducts.category := "X"; AnalyzeProducts.amount := of_Z 100;
     AnalyzeProducts.profit := of_Z 5; AnalyzeProducts.rate := of_Z 5 |}.

Definition cat_y : AnalyzeProducts.row :=
  {| AnalyzeProducts.category := "Y"; AnalyzeProducts.amount := of_Z 300;
     AnalyzeProducts.profit := of_Z 54; AnalyzeProducts.rate := of_Z 18 |}.

Definition cat_z : AnalyzeProducts.row :=
  {| AnalyzeProducts.category := "Z"; AnalyzeProducts.amount := of_Z 500;
     AnalyzeProducts.profit := of_Z 100; AnalyzeProducts.rate := of_Z 20 |}.

(** The three-row sheet of the specification's scenario. *)
Definition sheet_scenario : sheet :=
  {| columns := all_columns;
     rows := [ mk_raw (Some "A") (Some "p1") (num 1000) (num 50) CBlank;
               mk_raw (Some "A") (Some "p2") CBlank CBlank CBlank;
               mk_raw None None CBlank CBlank CBlank ] |}.

Definition cleaned_scenario : list Frame.row :=
  [ mk_row (Some "A") (Some "p1") (of_Z 1000) (of_Z 50) NaN;
    mk_row (Some "A") (Some "p2") NaN NaN NaN ].

End Samples.


(** ** price_analysis.py: the frames behind the figures *)

Module PriceAnalysisPlots.

(** [DataFrame.head(n)] for a count that is not negative. *)
Definition head {R : Type} (n : nat) (df : list R) : list R := firstn n df.

(** [plot_category_margin]: the frame [sorted_cat] that is drawn. *)
Definition sorted_cat (cat_summary : list Cat.row) : list Cat.row :=
  sort_values Cat.sales_amount false cat_summary.

(** [plot_price_trend]: the frame [top_products] that is drawn, the
    [top_n] products of highest sales amount in ascending order. *)
Definition top_products (product_summary : list Prod.row) (top_n : nat)
  : list Prod.row :=
  sort_values Prod.sales_amount true
    (head top_n (sort_values Prod.sales_amount false product_summary)).

End PriceAnalysisPlots.

(** ** analyze_products.py: metrics, chart data and report figures *)

Module AnalyzeProductsReport.

Local Open Scope string_scope.

(** *** calculate_metrics

    The dictionary [metrics]: a key is present when its column is. *)
Record metrics : Type := {
  avg_margin_rate : option fnum;
  max_margin_rate : option fnum;
  min_margin_rate : option fnum;
  total_profit : option fnum;
  total_amount : option fnum
}.

Definition fmax2 (x y : fnum) : fnum := if fge x y then x else y.
Definition fmin2 (x y : fnum) : fnum := if fle x y then x else y.

(** [Series.max()] and [Series.min()] with [skipna=True]: NaN for a
    column without any value. *)
Definition col_max (l : list fnum) : fnum :=
  match filter notna l with
  | [] => NaN
  | x :: t => fold_left fmax2 t x
  end.

Definition col_min (l : list fnum) : fnum :=
  match filter notna l with
  | [] => NaN
  | x :: t => fold_left fmin2 t x
  end.

Definition has_column (columns : list string) (col : string) : bool :=
  existsb (String.eqb col) columns.

(** The frame is given by its column names and its rows; the value a row
    carries for a column that is absent is never read. *)
Definition calculate_metrics (columns : list string) (df : list Frame.row)
  : result metrics :=
  if has_column columns PriceAnalysis.col_product_name then
    let df_clean := filter (fun r => is_some (r_product_name r)) df in
    let margin_rates :=
      map (fun x => fmul x (of_Z 100)) (filter notna (map r_margin_rate df_clean)) in
    let has_rate := has_column columns PriceAnalysis.col_margin_rate in
    Ok {| avg_margin_rate := if has_rate then Some (mean margin_rates) else None;
          max_margin_rate := if has_rate then Some (col_max margin_rates) else None;
          min_margin_rate := if has_rate then Some (col_min margin_rates) else None;
          total_profit :=
            if has_column columns PriceAnalysis.col_gross_profit
            then Some (sum_skipna (map r_gross_profit df_clean)) else None;
          total_amount :=
            if has_column columns PriceAnalysis.col_sales_amount
            then Some (sum_skipna (map r_sales_amount df_clean)) else None |}
  else Raise (KeyError PriceAnalysis.col_product_name).

(** *** create_visualizations: the data of the charts *)

(** The four bar colours: #ff4444, #ffaa44, #4488ff and #44ff44. *)
Inductive color : Type :=
| Red
| Orange
| Blue
| Green.

(** Chart 1 colours a bar by the rate as a fraction [x]. *)
Definition amount_chart_color (x : fnum) : color :=
  if flt x (ratio 5 100) then Red
  else if flt x (ratio 10 100) then Orange
  else if fgt x (ratio 15 100) then Green
  else Blue.

(** Chart 2 colours a bar by the same fraction, tested from above. *)
Definition rate_chart_color (x : fnum) : color :=
  if fgt x (ratio 15 100) then Green
  else if fgt x (ratio 10 100) then Blue
  else if fgt x (ratio 5 100) then Orange
  else Red.

Definition amount_chart_colors (category_analysis : list AnalyzeProducts.row)
  : list color :=
  map (fun r => amount_chart_color (fdiv (AnalyzeProducts.rate r) (of_Z 100)))
      (PriceAnalysisPlots.head 15 category_analysis).

Definition rate_chart_colors (category_analysis : list AnalyzeProducts.row)
  : list color :=
  map (fun r => rate_chart_color (fdiv (AnalyzeProducts.rate r) (of_Z 100)))
      (PriceAnalysisPlots.head 15
         (sort_values AnalyzeProducts.rate false category_analysis)).

(** Chart 6: the four quadrants around the median amount and the rate
    10. *)
Record quadrants : Type := {
  q1 : list AnalyzeProducts.row;
  q2 : list AnalyzeProducts.row;
  q3 : list AnalyzeProducts.row;
  q4 : list AnalyzeProducts.row
}.

Definition four_quadrants (category_analysis : list AnalyzeProducts.row)
  : quadrants :=
  let median_amount := median (map AnalyzeProducts.amount category_analysis) in
  let median_rate := of_Z 10 in
  {| q1 := filter (fun r => fge (AnalyzeProducts.amount r) median_amount
                            && fge (AnalyzeProducts.rate r) median_rate)
                  category_analysis;
     q2 := filter (fun r => flt (AnalyzeProducts.amount r) median_amount
                            && fge (AnalyzeProducts.rate r) median_rate)
                  category_analysis;
     q3 := filter (fun r => flt (AnalyzeProducts.amount r) median_amount
                            && flt (AnalyzeProducts.rate r) median_rate)
                  category_analysis;
     q4 := filter (fun r => fge (AnalyzeProducts.amount r) median_amount
                            && flt (AnalyzeProducts.rate r) median_rate)
                  category_analysis |}.

(** *** identify_issues: the text of an entry

    [group3] puts a comma before every group of three digits counted
    from the right. *)
Fixpoint group3 (s : string) : string :=
  match s with
  | EmptyString => EmptyString
  | String c t =>
      String c (if negb (Nat.eqb (String.length t) 0)
                   && Nat.eqb (Nat.modulo (String.length t) 3) 0
                then String "," (group3 t)
                else group3 t)
  end.

Definition digits (z : Z) : string :=
  DecimalString.NilZero.string_of_int (Z.to_int z).

(** [f"{x:,.0f}"]: the value rounded half to even to an integer, with a
    sign when negative and the digits in groups of three; an infinity
    and NaN print by name. *)
Definition format_thousands (x : fnum) : string :=
  match x with
  | Fin q =>
      let z := round_half_even q in
      (if (z <? 0)%Z then "-" else "") ++ group3 (digits (Z.abs z))
  | PInf => "inf"
  | NInf => "-inf"
  | NaN => "nan"
  end.

(** [s.replace(',', '')]. *)
Fixpoint remove_commas (s : string) : string :=
  match s with
  | EmptyString => EmptyString
  | String c t => if Ascii.eqb c "," then remove_commas t else String c (remove_commas t)
  end.

(** [float(s)] on the texts [format_thousands] can give: a decimal
    integer or the name of an infinity or of NaN; [None] stands for the
    [ValueError] of any other text. *)
Definition to_float (s : string) : option fnum :=
  if String.eqb s "inf" then Some PInf
  else if String.eqb s "-inf" then Some NInf
  else if String.eqb s "nan" then Some NaN
  else option_map (fun d => of_Z (Z.of_int d)) (DecimalString.NilZero.int_of_string s).

(** The dictionary [identify_issues] appends for a row, without its
    rate text. *)
Record entry : Type := {
  e_category : string;
  e_amount : string;
  e_profit : string
}.

Definition entry_of (r : AnalyzeProducts.row) : entry :=
  {| e_category := AnalyzeProducts.category r;
     e_amount := format_thousands (AnalyzeProducts.amount r);
     e_profit := format_thousands (AnalyzeProducts.profit r) |}.

(** *** generate_report: the figures behind the text *)

(** [float(item['金额'].replace(',',''))]. *)
Definition entry_amount (item : entry) : option fnum :=
  to_float (remove_commas (e_amount item)).

Inductive risk : Type :=
| HighRisk
| MediumRisk
| LowRisk.

(** [risk_level] of a low-margin entry. *)
Definition risk_level (item : entry) : option risk :=
  option_map (fun amount =>
                if fgt amount (of_Z 30000) then HighRisk
                else if fgt amount (of_Z 10000) then MediumRisk
                else LowRisk)
             (entry_amount item).

(** The three counts of section 3.1. *)
Definition healthy_count (t : list AnalyzeProducts.row) : nat :=
  length (filter (fun r => fge (AnalyzeProducts.rate r) (of_Z 10)) t).

Definition warning_count (t : list AnalyzeProducts.row) : nat :=
  length (filter (fun r => fge (AnalyzeProducts.rate r) (of_Z 5)
                           && flt (AnalyzeProducts.rate r) (of_Z 10)) t).

Definition danger_count (t : list AnalyzeProducts.row) : nat :=
  length (filter (fun r => flt (AnalyzeProducts.rate r) (of_Z 5)) t).

Inductive rating : Type :=
| Good
| Fair
| Poor.

(** The rating of section 3.1; the section is written for a table that
    has rows only. *)
Definition health_rating (category_analysis : option (list AnalyzeProducts.row))
  : option rating :=
  match category_analysis with
  | None | Some [] => None
  | Some t =>
      let total_count := length t in
      let share := fdiv (of_nat (healthy_count t)) (of_nat total_count) in
      Some (if Nat.ltb 0 total_count && fge share (ratio 6 10) then Good
            else if fge share (ratio 4 10) then Fair
            else Poor)
  end.

End AnalyzeProductsReport.


(** ** Further reference notions and samples *)

Module Reference2.

(** The first of [cols] that the frame does not have. *)
Definition first_absent (cols present : list string) : option string :=
  find (fun c => negb (existsb (String.eqb c) present)) cols.

(** The key of a Product Summary row. *)
Definition prod_key (p : Prod.row) : string * string :=
  (Prod.category p, Prod.product_name p).

(** The rows of a Product Summary that belong to one category. *)
Definition products_of (ps : list Prod.row) (c : string) : list Prod.row :=
  filter (fun p => String.eqb (Prod.category p) c) ps.



(** The sheet as a frame with float columns, which is how
    analyze_products.py takes it: a numeric cell gives its number, a
    blank cell NaN; there is no such frame when a numeric column holds a
    text. *)
Definition float_cell (c : cell) : option fnum :=
  match c with
  | CNum x => Some x
  | CBlank => Some NaN
  | CText _ => None
  end.

Definition float_row (x : raw_row) : option Frame.row :=
  match float_cell (x_sales_amount x), float_cell (x_gross_profit x),
        float_cell (x_margin_rate x), float_cell (x_contribution_value x) with
  | Some sa, Some gp, Some mr, Some cv =>
      Some {| r_category := x_category x;
              r_product_name := x_product_name x;
              r_sales_amount := sa;
              r_gross_profit := gp;
              r_margin_rate := mr;
              r_contribution_value := cv |}
  | _, _, _, _ => None
  end.

Fixpoint float_frame (l : list raw_row) : option (list Frame.row) :=
  match l with
  | [] => Some []
  | x :: l' =>
      match float_row x, float_frame l' with
      | Some r, Some df => Some (r :: df)
      | _, _ => None
      end
  end.


End Reference2.
Export Reference2.


Module Samples2.

Local Open Scope string_scope.

(** A cleaned frame with a product at a margin of twenty percent and a
    product without sales. *)
Definition frame_high : list Frame.row :=
  [ Samples.mk_row (Some "A") (Some "p1") (of_Z 100) (of_Z 20) (ratio 20 100);
    Samples.mk_row (Some "A") (Some "p2") (of_Z 0) (of_Z 0) NaN;
    Samples.mk_row (Some "B") (Some "p3") (of_Z 300) (of_Z 30) (ratio 10 100) ].

Definition high_product : Prod.row :=
  PriceAnalysis.replace_row
    (PriceAnalysis.prod_agg (("A", "p1"), rows_of_product frame_high "A" "p1")).

Definition unsold_product : Prod.row :=
  PriceAnalysis.replace_row
    (PriceAnalysis.prod_agg (("A", "p2"), rows_of_product frame_high "A" "p2")).

(** A category of the amount 30000.4 and the rate 3. *)
Definition cat_borderline : AnalyzeProducts.row :=
  {| AnalyzeProducts.category := "W"; AnalyzeProducts.amount := ratio 300004 10;
     AnalyzeProducts.profit := of_Z 900; AnalyzeProducts.rate := of_Z 3 |}.


(** One product of the amount 300 and the profit 100: a margin of a
    third, which has no finite decimal expansion. *)
Definition frame_thirds : list Frame.row :=
  [ Samples.mk_row (Some "A") (Some "p1") (of_Z 300) (of_Z 100) NaN ].

(** A cleaned frame with two products without sales: p2 has no gross
    profit either, p3 has the gross profit 5. *)
Definition frame_unsold : list Frame.row :=
  [ Samples.mk_row (Some "A") (Some "p1") (of_Z 100) (of_Z 20) (ratio 20 100);
    Samples.mk_row (Some "A") (Some "p2") (of_Z 0) (of_Z 0) NaN;
    Samples.mk_row (Some "A") (Some "p3") (of_Z 0) (of_Z 5) NaN ].

Definition unsold_idle_product : Prod.row :=
  PriceAnalysis.replace_row
    (PriceAnalysis.prod_agg (("A", "p2"), rows_of_product frame_unsold "A" "p2")).

Definition unsold_profit_product : Prod.row :=
  PriceAnalysis.replace_row
    (PriceAnalysis.prod_agg (("A", "p3"), rows_of_product frame_unsold "A" "p3")).





End Samples2.


(* ================================================================== *)
(** * Part II.  Properties                                              *)
(* ================================================================== *)

(** ** Arithmetic of float values *)

Section NumFacts.

Lemma fadd_comm (x y : fnum) : fadd x y = fadd y x.
Proof.
  destruct x, y; simpl; try reflexivity.
  f_equal; ring.
Qed.

Lemma fadd_assoc (x y z : fnum) : fadd x (fadd y z) = fadd (fadd x y) z.
Proof.
  destruct x, y, z; simpl; try reflexivity.
  f_equal; ring.
Qed.

Lemma fadd_zero_l (x : fnum) : fadd zero x = x.
Proof.
  destruct x; simpl; try reflexivity.
  f_equal. unfold zero. change (Q2Qc (inject_Z 0)) with 0. ring.
Qed.

Lemma fadd_zero_r (x : fnum) : fadd x zero = x.
Proof. rewrite fadd_comm. apply fadd_zero_l. Qed.

Lemma fge_Fin (a b : Qc) : fge (Fin a) (Fin b) = true <-> b <= a.
Proof.
  unfold fge; simpl.
  destruct (a ?= b) eqn:E; split; intro H; try reflexivity; try discriminate.
  - apply Qceq_alt in E. subst. apply Qcle_refl.
  - apply Qclt_alt in E. exfalso. apply (Qclt_not_le _ _ E H).
  - apply Qcgt_alt in E. apply Qclt_le_weak. exact E.
Qed.

Lemma fle_Fin (a b : Qc) : fle (Fin a) (Fin b) = true <-> a <= b.
Proof.
  unfold fle; simpl.
  destruct (a ?= b) eqn:E; split; intro H; try reflexivity; try discriminate.
  - apply Qceq_alt in E. subst. apply Qcle_refl.
  - apply Qclt_alt in E. apply Qclt_le_weak. exact E.
  - apply Qcgt_alt in E. exfalso. apply (Qclt_not_le _ _ E H).
Qed.

Lemma flt_Fin (a b : Qc) : flt (Fin a) (Fin b) = true <-> a < b.
Proof.
  unfold flt; simpl.
  destruct (a ?= b) eqn:E; split; intro H; try reflexivity; try discriminate.
  - apply Qceq_alt in E. subst. exfalso. apply (Qclt_not_le _ _ H). apply Qcle_refl.
  - apply Qclt_alt. exact E.
  - pose proof (proj1 (Qclt_alt a b) H) as H'. rewrite E in H'. discriminate.
Qed.

(** [feqb] decides equality of float values as data (NaN equals NaN). *)
Lemma feqb_eq (x y : fnum) : feqb x y = true <-> x = y.
Proof.
  destruct x as [a| | |], y as [b| | |]; simpl; split; intro H;
    try reflexivity; try discriminate.
  - destruct (a ?= b) eqn:E; try discriminate.
    apply Qceq_alt in E. congruence.
  - injection H as ->. assert (E : (b ?= b) = Eq) by (apply Qceq_alt; reflexivity).
    rewrite E. reflexivity.
Qed.

Lemma feqb_neq (x y : fnum) : feqb x y = false -> x <> y.
Proof.
  intros H E. apply feqb_eq in E. congruence.
Qed.

(** The quotient of two float values is finite exactly when the
    numerator is finite and the denominator is neither zero nor NaN. *)
Lemma fdiv_is_finite (x y : fnum) :
  is_finite (fdiv x y) = true <->
  is_finite x = true /\ y <> zero /\ y <> NaN.
Proof.
  destruct x as [a| | |], y as [b| | |]; simpl;
    try (split; [discriminate | intros (H1 & H2 & H3); congruence]);
    try (split; [intros _; repeat split; discriminate | reflexivity]).
  - destruct (b ?= 0) eqn:E.
    + apply Qceq_alt in E. subst b.
      split.
      * destruct (a ?= 0); discriminate.
      * intros (_ & H & _). exfalso. apply H. reflexivity.
    + split; [intros _|reflexivity]. repeat split; try discriminate.
      intros H. injection H as H. apply Qclt_alt in E.
      change (Q2Qc (inject_Z 0)) with 0 in H. subst b.
      apply (Qclt_not_le _ _ E). apply Qcle_refl.
    + split; [intros _|reflexivity]. repeat split; try discriminate.
      intros H. injection H as H. apply Qcgt_alt in E.
      change (Q2Qc (inject_Z 0)) with 0 in H. subst b.
      apply (Qclt_not_le _ _ E). apply Qcle_refl.
  - destruct (b ?= 0); split; try discriminate; intros (H & _); discriminate.
  - destruct (b ?= 0); split; try discriminate; intros (H & _); discriminate.
Qed.

Lemma fdiv_Fin (a b : Qc) : b <> 0 -> fdiv (Fin a) (Fin b) = Fin (a / b).
Proof.
  intros Hb. simpl. destruct (b ?= 0) eqn:E; try reflexivity.
  apply Qceq_alt in E. contradiction.
Qed.

Lemma sum_skipna_cons (x : fnum) (l : list fnum) :
  sum_skipna (x :: l) = if notna x then fadd x (sum_skipna l) else sum_skipna l.
Proof.
  unfold sum_skipna. simpl. destruct (notna x); reflexivity.
Qed.


Lemma replace0_spec (x : fnum) :
  (x <> PInf -> x <> NInf -> PriceAnalysis.replace0 x = x) /\
  (x = PInf \/ x = NInf -> PriceAnalysis.replace0 x = zero).
Proof.
  split.
  - intros H1 H2. destruct x; try reflexivity; congruence.
  - intros [-> | ->]; reflexivity.
Qed.

(** The quotient of two finite sums, case by case. *)
Lemma fdiv_finite_cases (g s : Qc) :
  (s <> 0%Qc -> fdiv (Fin g) (Fin s) = Fin (g / s)) /\
  (s = 0%Qc -> g <> 0%Qc ->
     fdiv (Fin g) (Fin s) = PInf \/ fdiv (Fin g) (Fin s) = NInf) /\
  (s = 0%Qc -> g = 0%Qc -> fdiv (Fin g) (Fin s) = NaN).
Proof.
  split; [|split].
  - intros Hs. cbn [fdiv]. destruct (s ?= 0)%Qc eqn:E; try reflexivity.
    apply Qceq_alt in E. contradiction.
  - intros -> Hg. cbn [fdiv]. change (0 ?= 0)%Qc with Eq.
    destruct (g ?= 0)%Qc eqn:E; auto.
    apply Qceq_alt in E. contradiction.
  - intros -> ->. reflexivity.
Qed.

End NumFacts.

(** ** Sorting, distinct values and groups *)

Local Open Scope nat_scope.

Section SortFacts.
Context {A : Type} (leb : A -> A -> bool).

Lemma insert_perm (x : A) (l : list A) : Permutation (insert leb x l) (x :: l).
Proof.
  induction l as [|y t IH]; simpl.
  - apply Permutation_refl.
  - destruct (leb x y).
    + apply Permutation_refl.
    + apply Permutation_trans with (y :: x :: t).
      * apply perm_skip. exact IH.
      * apply perm_swap.
Qed.

Lemma isort_perm (l : list A) : Permutation (isort leb l) l.
Proof.
  induction l as [|x t IH]; simpl.
  - apply perm_nil.
  - apply Permutation_trans with (x :: isort leb t).
    + apply insert_perm.
    + apply perm_skip. exact IH.
Qed.

Lemma isort_In (x : A) (l : list A) : In x (isort leb l) <-> In x l.
Proof.
  split; apply Permutation_in.
  - apply isort_perm.
  - apply Permutation_sym, isort_perm.
Qed.

Lemma isort_length (l : list A) : length (isort leb l) = length l.
Proof. apply Permutation_length, isort_perm. Qed.
End SortFacts.

Lemma sort_values_In {R : Type} (by_ : R -> fnum) (asc : bool) (df : list R) (r : R) :
  In r (sort_values by_ asc df) <-> In r df.
Proof. unfold sort_values. apply isort_In. Qed.

Section DistinctFacts.
Context {A : Type} (eqb : A -> A -> bool).
Hypothesis eqb_spec : forall a b, eqb a b = true <-> a = b.

Lemma existsb_eqb (x : A) (l : list A) : existsb (eqb x) l = true <-> In x l.
Proof.
  rewrite existsb_exists. split.
  - intros (y & Hy & E). apply eqb_spec in E. subst. exact Hy.
  - intros H. exists x. split; [exact H | apply eqb_spec; reflexivity].
Qed.

Lemma dedup_In (x : A) (l : list A) : In x (dedup eqb l) <-> In x l.
Proof.
  induction l as [|y t IH]; simpl.
  - tauto.
  - destruct (existsb (eqb y) t) eqn:E.
    + rewrite IH. split; [tauto|]. intros [->|H]; [|exact H].
      apply existsb_eqb. exact E.
    + simpl. rewrite IH. tauto.
Qed.

Lemma dedup_NoDup (l : list A) : NoDup (dedup eqb l).
Proof.
  induction l as [|y t IH]; simpl.
  - constructor.
  - destruct (existsb (eqb y) t) eqn:E.
    + exact IH.
    + constructor; [|exact IH].
      rewrite dedup_In. intros H. apply existsb_eqb in H. congruence.
Qed.
End DistinctFacts.

Lemma dropna_In {A : Type} (a : A) (l : list (option A)) :
  In a (dropna l) <-> In (Some a) l.
Proof.
  induction l as [|[b|] t IH]; simpl.
  - tauto.
  - rewrite IH. split; intros [H|H]; auto; left; congruence.
  - rewrite IH. split; [auto|]. intros [H|H]; [discriminate|exact H].
Qed.

Section GroupFacts.
Context {R K : Type} (key_eqb key_leb : K -> K -> bool) (by_ : R -> option K).
Hypothesis key_eqb_spec : forall a b, key_eqb a b = true <-> a = b.

Lemma group_keys_In (df : list R) (k : K) :
  In k (group_keys key_eqb key_leb by_ df) <-> exists r, In r df /\ by_ r = Some k.
Proof.
  unfold group_keys. rewrite isort_In, (dedup_In _ key_eqb_spec), dropna_In, in_map_iff.
  split; intros (r & H1 & H2); exists r; auto.
Qed.

Lemma group_keys_NoDup (df : list R) : NoDup (group_keys key_eqb key_leb by_ df).
Proof.
  unfold group_keys.
  apply (Permutation_NoDup (Permutation_sym (isort_perm key_leb _))).
  apply (dedup_NoDup _ key_eqb_spec).
Qed.

Lemma in_group_true (k : K) (r : R) :
  in_group key_eqb by_ k r = true <-> by_ r = Some k.
Proof.
  unfold in_group. destruct (by_ r) as [k'|].
  - rewrite key_eqb_spec. split; congruence.
  - split; discriminate.
Qed.

Lemma groupby_In (df : list R) (k : K) (g : list R) :
  In (k, g) (groupby key_eqb key_leb by_ df) <->
  In k (group_keys key_eqb key_leb by_ df) /\ g = filter (in_group key_eqb by_ k) df.
Proof.
  unfold groupby. rewrite in_map_iff. split.
  - intros (k' & E & H). injection E as -> ->. auto.
  - intros (H & ->). exists k. auto.
Qed.

(** Every group has a row: a key is listed only when a row carries it. *)
Lemma groupby_nonempty (df : list R) (k : K) (g : list R) :
  In (k, g) (groupby key_eqb key_leb by_ df) -> g <> [].
Proof.
  rewrite groupby_In, group_keys_In. intros ((r & Hr & Hk) & ->) E.
  assert (H : In r (filter (in_group key_eqb by_ k) df)).
  { apply filter_In. split; [exact Hr | apply in_group_true; exact Hk]. }
  rewrite E in H. exact H.
Qed.
End GroupFacts.

Lemma pair_eqb_spec (a b : string * string) : pair_eqb a b = true <-> a = b.
Proof.
  destruct a as [a1 a2], b as [b1 b2]. unfold pair_eqb. simpl.
  rewrite andb_true_iff, !String.eqb_eq. split.
  - intros [-> ->]. reflexivity.
  - intros E. injection E as -> ->. auto.
Qed.

(** ** Sums over groups *)

Section GroupSum.
Context {R K : Type} (key_eqb key_leb : K -> K -> bool) (by_ : R -> option K).
Hypothesis key_eqb_spec : forall a b, key_eqb a b = true <-> a = b.
Variable f : R -> fnum.

Lemma total_cons (x : R) (l : list R) :
  column_sum f (x :: l) = if notna (f x) then fadd (f x) (column_sum f l) else column_sum f l.
Proof. unfold column_sum. simpl. apply sum_skipna_cons. Qed.

(** Splitting a selection in two disjoint ones splits its sum. *)
Lemma total_filter_split (p q : R -> bool) (l : list R) :
  (forall r, p r = true -> q r = true -> False) ->
  column_sum f (filter (fun r => p r || q r) l) =
  fadd (column_sum f (filter p l)) (column_sum f (filter q l)).
Proof.
  intros Hpq. induction l as [|x t IH].
  - change (zero = fadd zero zero). symmetry. apply fadd_zero_l.
  - simpl. destruct (p x) eqn:Ep, (q x) eqn:Eq; simpl.
    + exfalso. apply (Hpq x Ep Eq).
    + rewrite !total_cons, IH. destruct (notna (f x)); [|reflexivity].
      apply fadd_assoc.
    + rewrite !total_cons, IH. destruct (notna (f x)); [|reflexivity].
      rewrite !fadd_assoc. f_equal. apply fadd_comm.
    + exact IH.
Qed.

Lemma total_over_keys (ks : list K) (df : list R) :
  NoDup ks ->
  fsum (map (fun k => column_sum f (filter (in_group key_eqb by_ k) df)) ks) =
  column_sum f (filter (key_among key_eqb by_ ks) df).
Proof.
  induction 1 as [|k ks Hk Hnd IH].
  - simpl. replace (filter (key_among key_eqb by_ []) df) with (@nil R).
    + reflexivity.
    + induction df as [|x t IHt]; simpl; [reflexivity|].
      unfold key_among at 1. destruct (by_ x); exact IHt.
  - simpl. rewrite IH, <- total_filter_split.
    + f_equal. apply filter_ext. intros r.
      unfold key_among, in_group. destruct (by_ r); reflexivity.
    + intros r Hp Hq. apply in_group_true in Hp; [|exact key_eqb_spec].
      unfold key_among in Hq. rewrite Hp in Hq.
      apply existsb_exists in Hq. destruct Hq as (k' & Hin & E).
      apply key_eqb_spec in E. subst k'. contradiction.
Qed.

(** The group sums of a frame add up to the sum over the rows that have
    a key. *)
Lemma total_over_groups (df : list R) :
  fsum (map (fun g => column_sum f (snd g)) (groupby key_eqb key_leb by_ df)) =
  column_sum f (filter (fun r => is_some (by_ r)) df).
Proof.
  unfold groupby. rewrite map_map. simpl.
  rewrite total_over_keys by (apply group_keys_NoDup; exact key_eqb_spec).
  f_equal. apply filter_ext_in. intros r Hr.
  unfold key_among. destruct (by_ r) as [k|] eqn:E; [|reflexivity].
  simpl. apply existsb_exists. exists k. split.
  - apply group_keys_In; [exact key_eqb_spec|]. exists r. auto.
  - apply key_eqb_spec. reflexivity.
Qed.
End GroupSum.

(** ** Forward fill *)

Section FfillFacts.
Context {A : Type}.

Lemma ffill_from_length (l : list (option A)) :
  forall last, length (ffill_from last l) = length l.
Proof.
  induction l as [|x t IH]; intros last; simpl; [reflexivity|].
  rewrite IH. reflexivity.
Qed.

Lemma ffill_from_nth (l : list (option A)) :
  forall last i, i < length l ->
    nth_error (ffill_from last l) i =
    Some (match last_valid (firstn (S i) l) with
          | Some v => Some v
          | None => last
          end).
Proof.
  induction l as [|x t IH]; intros last i Hi; simpl in Hi; [lia|].
  destruct i as [|i].
  - simpl. destruct x; reflexivity.
  - change (ffill_from last (x :: t))
      with (let v := match x with Some _ => x | None => last end in
            v :: ffill_from v t).
    cbv zeta. rewrite firstn_cons.
    change (last_valid (x :: firstn (S i) t))
      with (match last_valid (firstn (S i) t) with Some v => Some v | None => x end).
    change (nth_error (?v :: ?l) (S i)) with (nth_error l i).
    rewrite IH by lia.
    destruct (last_valid (firstn (S i) t)); [reflexivity|].
    destruct x; reflexivity.
Qed.

(** Each entry of the filled column is the nearest non-null entry at or
    above it in the original column; it is null when there is none. *)
Lemma ffill_nth (l : list (option A)) (i : nat) :
  i < length l ->
  nth_error (ffill l) i = Some (last_valid (firstn (S i) l)).
Proof.
  intros Hi. unfold ffill. rewrite ffill_from_nth by exact Hi.
  destruct (last_valid (firstn (S i) l)); reflexivity.
Qed.

Lemma last_valid_None (l : list (option A)) :
  last_valid l = None <-> Forall (fun c => c = None) l.
Proof.
  induction l as [|x t IH]; simpl.
  - split; auto.
  - destruct (last_valid t) eqn:E.
    + split; [discriminate|]. intros H. inversion H; subst.
      apply IH in H3. discriminate.
    + split.
      * intros ->. constructor; [reflexivity | apply IH; reflexivity].
      * intros H. inversion H; subst. reflexivity.
Qed.

Lemma last_valid_Some (l : list (option A)) (v : A) :
  last_valid l = Some v ->
  exists j, nth_error l j = Some (Some v) /\
            forall k, j < k -> k < length l -> nth_error l k = Some None.
Proof.
  induction l as [|x t IH]; simpl; [discriminate|].
  destruct (last_valid t) as [w|] eqn:E.
  - intros H. injection H as ->. destruct (IH eq_refl) as (j & Hj & Hk).
    exists (S j). split; [exact Hj|].
    intros k H1 H2. destruct k as [|k]; [lia|]. simpl. apply Hk; lia.
  - intros ->. exists 0. split; [reflexivity|].
    intros k H1 H2. destruct k as [|k]; [lia|]. simpl.
    apply last_valid_None in E. rewrite Forall_forall in E.
    destruct (nth_error t k) eqn:En.
    + f_equal. apply E. eapply nth_error_In. exact En.
    + apply nth_error_None in En. lia.
Qed.
End FfillFacts.

Lemma assign_category_In (df : list raw_row) :
  forall (values : list (option string)) (y : raw_row),
    In y (assign_category df values) ->
    exists i x c, nth_error df i = Some x /\ nth_error values i = Some c /\
                  y = set_category c x.
Proof.
  induction df as [|x t IH]; intros values y H; simpl in H; [contradiction|].
  destruct values as [|c cs]; [contradiction|].
  destruct H as [<-|H].
  - exists 0, x, c. auto.
  - destruct (IH cs y H) as (i & x' & c' & H1 & H2 & H3).
    exists (S i), x', c'. auto.
Qed.

Lemma fill_rows_In (l : list raw_row) (y : raw_row) :
  In y (PriceAnalysis.fill_rows l) ->
  exists i x, nth_error l i = Some x /\
    y = set_category (last_valid (firstn (S i) (map x_category l))) x.
Proof.
  intros H. apply assign_category_In in H.
  destruct H as (i & x & c & H1 & H2 & ->).
  exists i, x. split; [exact H1|].
  assert (Hi : i < length (map x_category l)).
  { rewrite length_map. apply nth_error_Some. congruence. }
  rewrite (ffill_nth _ _ Hi) in H2. congruence.
Qed.

(** ** The loader of price_analysis.py *)

Lemma bind_Ok {A B : Type} (m : result A) (k : A -> result B) (b : B) :
  bind m k = Ok b -> exists a, m = Ok a /\ k a = Ok b.
Proof.
  destruct m as [a|e]; simpl; [|discriminate].
  intros H. exists a. auto.
Qed.

Lemma bind_Raise {A B : Type} (m : result A) (k : A -> result B) (e : exn) :
  m = Raise e -> bind m k = Raise e.
Proof. intros ->. reflexivity. Qed.

Section LoaderFacts.
Variable parse_number : string -> option fnum.
Variable read_excel : string -> string -> result sheet.

Lemma load_data_Ok (path sh : string) (out : list Frame.row) :
  PriceAnalysis.load_data parse_number read_excel path sh = Ok out ->
  exists df, read_excel path sh = Ok df /\
    out = map (PriceAnalysis.coerce parse_number) (PriceAnalysis.clean_rows (rows df)).
Proof.
  unfold PriceAnalysis.load_data. intros H.
  apply bind_Ok in H. destruct H as (df & Hread & H).
  apply bind_Ok in H. destruct H as (_ & _ & H).
  apply bind_Ok in H. destruct H as (_ & _ & H).
  apply bind_Ok in H. destruct H as (_ & _ & H).
  injection H as <-. exists df. auto.
Qed.

End LoaderFacts.

Lemma clean_rows_In (l : list raw_row) (y : raw_row) :
  In y (PriceAnalysis.clean_rows l) <->
  In y (PriceAnalysis.fill_rows l) /\
  x_product_name y <> None /\
  str_contains PriceAnalysis.marker_summary (astype_str (x_category y)) = false.
Proof.
  unfold PriceAnalysis.clean_rows. rewrite !filter_In.
  unfold PriceAnalysis.has_product_name, PriceAnalysis.not_summary.
  rewrite negb_true_iff.
  destruct (x_product_name y); simpl; intuition congruence.
Qed.

Section LoaderProperties.
Variable parse_number : string -> option fnum.
Variable read_excel : string -> string -> result sheet.

(** C3 (amended).  The category column is filled before any row is
    dropped: every row of the cleaned table comes from a sheet row with a
    product name, and its category is the nearest non-null category at or
    above that row in the sheet as read, rows that are later dropped
    included.  The category of a cleaned row is therefore null exactly
    when no row of the sheet down to it has a category. *)
Theorem load_data_category_fill (path sh : string) (out : list Frame.row) :
  PriceAnalysis.load_data parse_number read_excel path sh = Ok out ->
  forall r, In r out ->
    exists df i x,
      read_excel path sh = Ok df /\
      nth_error (rows df) i = Some x /\
      x_product_name x <> None /\
      r_product_name r = x_product_name x /\
      r_category r = last_valid (firstn (S i) (map x_category (rows df))) /\
      (r_category r = None <->
       Forall (fun c => c = None) (firstn (S i) (map x_category (rows df)))).
Proof.
  intros Hload r Hr.
  destruct (load_data_Ok _ _ _ _ _ Hload) as (df & Hread & ->).
  apply in_map_iff in Hr. destruct Hr as (y & <- & Hy).
  apply clean_rows_In in Hy. destruct Hy as (Hy & Hname & _).
  apply fill_rows_In in Hy. destruct Hy as (i & x & Hx & ->).
  exists df, i, x. simpl in Hname. simpl.
  split; [exact Hread|]. split; [exact Hx|]. split; [exact Hname|].
  split; [reflexivity|]. split; [reflexivity|].
  apply last_valid_None.
Qed.
End LoaderProperties.

Lemma load_data_category_fill_witness :
  exists df i x,
    Samples.single Samples.sheet_leading_null
      (PriceAnalysis.input Samples.args0) (PriceAnalysis.sheet_name Samples.args0) = Ok df /\
    nth_error (rows df) i = Some x /\
    x_product_name x <> None /\
    r_product_name (Samples.mk_row (Some "A"%string) (Some "p1"%string) (of_Z 10) (of_Z 2) NaN)
      = x_product_name x /\
    r_category (Samples.mk_row (Some "A"%string) (Some "p1"%string) (of_Z 10) (of_Z 2) NaN)
      = last_valid (firstn (S i) (map x_category (rows df))) /\
    (r_category (Samples.mk_row (Some "A"%string) (Some "p1"%string) (of_Z 10) (of_Z 2) NaN) = None <->
     Forall (fun c => c = None) (firstn (S i) (map x_category (rows df)))).
Proof.
  apply (load_data_category_fill Samples.parse_digits
           (Samples.single Samples.sheet_leading_null)
           (PriceAnalysis.input Samples.args0) (PriceAnalysis.sheet_name Samples.args0)
           Samples.cleaned_leading_null).
  - reflexivity.
  - simpl. right. left. reflexivity.
Defined.

(** C3, as stated, fails on a sheet whose first data row precedes every
    category label: the row is kept, with a null category. *)
Lemma cleaned_category_counterexample :
  PriceAnalysis.load_data Samples.parse_digits
    (Samples.single Samples.sheet_leading_null)
    (PriceAnalysis.input Samples.args0) (PriceAnalysis.sheet_name Samples.args0)
  = Ok Samples.cleaned_leading_null /\
  ~ (forall r, In r Samples.cleaned_leading_null -> r_category r <> None).
Proof.
  split; [reflexivity|].
  intros H.
  apply (H (Samples.mk_row None (Some "p0"%string) (of_Z 5) (of_Z 1) NaN)).
  - simpl. left. reflexivity.
  - reflexivity.
Qed.

(** ** The aggregator of price_analysis.py *)

(** C2 (amended).  The sales amounts of the Category Summary add up to the
    sum of the sales amounts of the rows of the frame that have a
    category, a missing amount counting for nothing; rows with a null
    category are in no group and are left out.  The category sums are
    added by float addition, so the equation also holds when amounts are
    infinite. *)
Theorem category_sales_conservation (df : list Frame.row) :
  fsum (map Cat.sales_amount (PriceAnalysis.cat_summary df)) =
  sum_skipna (map r_sales_amount (filter (fun r => is_some (r_category r)) df)).
Proof.
  unfold PriceAnalysis.cat_summary. rewrite map_map. simpl.
  apply (total_over_groups String.eqb String.leb r_category String.eqb_eq
           r_sales_amount df).
Qed.

(** C2, as stated, fails when a cleaned row has a null category: the
    categories sum to 10 and the cleaned rows to 15. *)
Lemma category_sales_conservation_counterexample :
  PriceAnalysis.load_data Samples.parse_digits
    (Samples.single Samples.sheet_leading_null)
    (PriceAnalysis.input Samples.args0) (PriceAnalysis.sheet_name Samples.args0)
  = Ok Samples.cleaned_leading_null /\
  fsum (map Cat.sales_amount (PriceAnalysis.cat_summary Samples.cleaned_leading_null))
  = of_Z 10 /\
  sum_skipna (map r_sales_amount Samples.cleaned_leading_null) = of_Z 15 /\
  fsum (map Cat.sales_amount (PriceAnalysis.cat_summary Samples.cleaned_leading_null))
  <> sum_skipna (map r_sales_amount Samples.cleaned_leading_null).
Proof.
  split; [reflexivity|].
  split; [apply feqb_eq; vm_compute; reflexivity|].
  split; [apply feqb_eq; vm_compute; reflexivity|].
  apply feqb_neq. vm_compute. reflexivity.
Qed.


Lemma cat_summary_In (df : list Frame.row) (c : Cat.row) :
  In c (PriceAnalysis.cat_summary df) <->
  exists k, (exists r, In r df /\ r_category r = Some k) /\
            c = PriceAnalysis.cat_agg (k, rows_of_category df k).
Proof.
  unfold PriceAnalysis.cat_summary. rewrite in_map_iff. split.
  - intros ([k g] & <- & H).
    apply groupby_In in H. destruct H as (Hk & ->).
    apply (group_keys_In _ _ _ String.eqb_eq) in Hk. exists k. auto.
  - intros (k & Hk & ->). exists (k, rows_of_category df k). split; [reflexivity|].
    apply groupby_In. split; [|reflexivity].
    apply (group_keys_In _ _ _ String.eqb_eq). exact Hk.
Qed.

Lemma product_summary_In (df : list Frame.row) (p : Prod.row) :
  In p (PriceAnalysis.product_summary df) <->
  exists c n, (exists r, In r df /\ r_category r = Some c /\ r_product_name r = Some n) /\
    p = PriceAnalysis.replace_row (PriceAnalysis.prod_agg ((c, n), rows_of_product df c n)).
Proof.
  unfold PriceAnalysis.product_summary. rewrite map_map, in_map_iff. split.
  - intros ([[c n] g] & <- & H).
    apply groupby_In in H. destruct H as (Hk & ->).
    apply (group_keys_In _ _ _ pair_eqb_spec) in Hk. destruct Hk as (r & Hr & Hk).
    exists c, n. split; [|reflexivity]. exists r. split; [exact Hr|].
    unfold PriceAnalysis.product_key in Hk.
    destruct (r_category r), (r_product_name r); try discriminate.
    injection Hk as -> ->. auto.
  - intros (c & n & (r & Hr & Hc & Hn) & ->).
    exists ((c, n), rows_of_product df c n). split; [reflexivity|].
    apply groupby_In. split; [|reflexivity].
    apply (group_keys_In _ _ _ pair_eqb_spec). exists r. split; [exact Hr|].
    unfold PriceAnalysis.product_key. rewrite Hc, Hn. reflexivity.
Qed.








(** ** Missing columns *)

Lemma getitem_cases (df : sheet) (c : string) :
  (In c (columns df) /\ getitem df c = Ok tt) \/
  (~ In c (columns df) /\ getitem df c = Raise (KeyError c)).
Proof.
  unfold getitem. destruct (existsb (String.eqb c) (columns df)) eqn:E.
  - left. split; [|reflexivity].
    apply (existsb_eqb _ String.eqb_eq). exact E.
  - right. split; [|reflexivity].
    intros H. apply (existsb_eqb _ String.eqb_eq) in H. congruence.
Qed.

(** Reading a list of columns in turn fails at the first absent one. *)
Lemma getitems_cases (df : sheet) (cols : list string) :
  ((forall c, In c cols -> In c (columns df)) /\ PriceAnalysis.getitems df cols = Ok tt) \/
  (exists c, In c cols /\ ~ In c (columns df) /\
             PriceAnalysis.getitems df cols = Raise (KeyError c)).
Proof.
  induction cols as [|c t IH]; simpl.
  - left. split; [contradiction | reflexivity].
  - destruct (getitem_cases df c) as [(Hin & ->)|(Hout & ->)]; simpl.
    + destruct IH as [(Hall & ->)|(c' & H1 & H2 & ->)].
      * left. split; [|reflexivity]. intros c' [<-|H]; auto.
      * right. exists c'. auto.
    + right. exists c. auto.
Qed.

Section MainProperties.
Variable parse_number : string -> option fnum.
Variable read_excel : string -> string -> result sheet.

Lemma load_data_missing_column (path sh : string) (df : sheet) :
  read_excel path sh = Ok df ->
  (exists c, In c required_columns /\ ~ In c (columns df)) ->
  exists c, In c required_columns /\ ~ In c (columns df) /\
    PriceAnalysis.load_data parse_number read_excel path sh = Raise (KeyError c).
Proof.
  intros Hread Hmiss. unfold PriceAnalysis.load_data. rewrite Hread. cbn [bind].
  destruct (getitems_cases df required_columns) as [(Hall & _)|(c & H1 & H2 & H3)].
  - destruct Hmiss as (c & H1 & H2). exfalso. apply H2, Hall, H1.
  - exists c. split; [exact H1|]. split; [exact H2|].
    change (PriceAnalysis.getitems df required_columns)
      with (_ <- getitem df PriceAnalysis.col_category ;;
            _ <- getitem df PriceAnalysis.col_product_name ;;
            PriceAnalysis.getitems df PriceAnalysis.NUMERIC_COLS) in H3.
    destruct (getitem df PriceAnalysis.col_category) as [u|e]; cbn [bind] in H3 |- *;
      [|congruence].
    destruct (getitem df PriceAnalysis.col_product_name) as [u'|e']; cbn [bind] in H3 |- *;
      [|congruence].
    rewrite H3. reflexivity.
Qed.

(** C5.  When the sheet lacks a column that [load_data] reads (the
    category column, the product-name column or any of the numeric
    columns, hence also when it lacks all amount columns), the run ends
    with the error raised for an absent column, [KeyError], which nothing
    catches; all it has done by then is create the output directory: no
    table and no figure has been written. *)
Theorem main_missing_column (args : PriceAnalysis.Args) (df : sheet) :
  read_excel (PriceAnalysis.input args) (PriceAnalysis.sheet_name args) = Ok df ->
  (exists c, In c required_columns /\ ~ In c (columns df)) ->
  exists c, In c required_columns /\ ~ In c (columns df) /\
    PriceAnalysis.load_data parse_number read_excel
      (PriceAnalysis.input args) (PriceAnalysis.sheet_name args) = Raise (KeyError c) /\
    PriceAnalysis.main parse_number read_excel args
      = ([PriceAnalysis.MkDir (PriceAnalysis.out args)], Raise (KeyError c)) /\
    filter PriceAnalysis.is_write
      (fst (PriceAnalysis.main parse_number read_excel args)) = [].
Proof.
  intros Hread Hmiss.
  destruct (load_data_missing_column _ _ _ Hread Hmiss) as (c & H1 & H2 & H3).
  exists c. split; [exact H1|]. split; [exact H2|]. split; [exact H3|].
  unfold PriceAnalysis.main. rewrite H3. split; reflexivity.
Qed.
End MainProperties.

Lemma main_missing_column_witness :
  exists c, In c required_columns /\ ~ In c (columns Samples.sheet_no_product_name) /\
    PriceAnalysis.load_data Samples.parse_digits (Samples.single Samples.sheet_no_product_name)
      (PriceAnalysis.input Samples.args0) (PriceAnalysis.sheet_name Samples.args0)
      = Raise (KeyError c) /\
    PriceAnalysis.main Samples.parse_digits (Samples.single Samples.sheet_no_product_name)
      Samples.args0
      = ([PriceAnalysis.MkDir (PriceAnalysis.out Samples.args0)], Raise (KeyError c)) /\
    filter PriceAnalysis.is_write
      (fst (PriceAnalysis.main Samples.parse_digits
              (Samples.single Samples.sheet_no_product_name) Samples.args0)) = [].
Proof.
  apply (main_missing_column Samples.parse_digits
           (Samples.single Samples.sheet_no_product_name) Samples.args0
           Samples.sheet_no_product_name).
  - reflexivity.
  - exists PriceAnalysis.col_product_name. split.
    + simpl. right. left. reflexivity.
    + simpl. intros [H|[H|[H|[H|[H|[]]]]]]; discriminate H.
Defined.

(** ** Marker rows *)

Lemma prefix_app (p s : string) :
  String.prefix p s = true <-> exists b, s = String.append p b.
Proof.
  revert s. induction p as [|a p IH]; intros s.
  - destruct s; simpl; (split; [intros _; eexists; reflexivity | reflexivity]).
  - destruct s as [|b s]; simpl.
    + split; [discriminate | intros (t & H); discriminate].
    + destruct (ascii_dec a b) as [->|Hab].
      * rewrite IH. split.
        -- intros (t & ->). exists t. reflexivity.
        -- intros (t & H). injection H as ->. exists t. reflexivity.
      * split; [discriminate|]. intros (t & H). injection H as -> _.
        exfalso. apply Hab. reflexivity.
Qed.

(** [str_contains pat s] holds exactly when [s] is some text, then [pat],
    then some text. *)
Lemma str_contains_spec (pat s : string) :
  str_contains pat s = true <->
  exists a b, s = String.append a (String.append pat b).
Proof.
  induction s as [|c s IH].
  - change (str_contains pat EmptyString)
      with (if String.prefix pat EmptyString then true else false).
    destruct (String.prefix pat EmptyString) eqn:E.
    + split; [intros _|reflexivity].
      apply prefix_app in E. destruct E as (b & E).
      exists EmptyString, b. exact E.
    + split; [discriminate|]. intros (a & b & H).
      destruct a; simpl in H.
      * assert (E' : String.prefix pat EmptyString = true)
          by (apply prefix_app; exists b; exact H).
        congruence.
      * discriminate.
  - change (str_contains pat (String c s))
      with (if String.prefix pat (String c s) then true else str_contains pat s).
    destruct (String.prefix pat (String c s)) eqn:E.
    + split; [intros _|reflexivity].
      apply prefix_app in E. destruct E as (b & E).
      exists EmptyString, b. exact E.
    + rewrite IH. split.
      * intros (a & b & ->). exists (String c a), b. reflexivity.
      * intros (a & b & H). destruct a as [|c' a]; simpl in H.
        -- assert (E' : String.prefix pat (String c s) = true)
             by (apply prefix_app; exists b; exact H).
           congruence.
        -- injection H as -> ->. exists a, b. reflexivity.
Qed.

(** The loader of price_analysis.py keeps no row whose category holds the
    subtotal marker. *)
Lemma clean_rows_no_summary (l : list raw_row) (y : raw_row) (c : string) :
  In y (PriceAnalysis.clean_rows l) -> x_category y = Some c ->
  str_contains PriceAnalysis.marker_summary c = false.
Proof.
  intros H Hc. apply clean_rows_In in H. destruct H as (_ & _ & H).
  rewrite Hc in H. exact H.
Qed.

(** [analyze_by_category] aggregates no row whose filled category holds
    either marker, and none without a sales amount. *)
Lemma analyze_clean_In (df : list Frame.row) (rc : Frame.row * option string) :
  In rc (AnalyzeProducts.clean df) <->
  In rc (combine df (ffill (map r_category df))) /\
  r_product_name (fst rc) <> None /\
  r_sales_amount (fst rc) <> NaN /\
  AnalyzeProducts.contains_marker (snd rc) = false.
Proof.
  unfold AnalyzeProducts.clean. rewrite !filter_In, negb_true_iff. cbv beta.
  destruct (r_product_name (fst rc)), (r_sales_amount (fst rc));
    unfold notna; simpl; intuition congruence.
Qed.

Lemma analyze_category_no_marker (df : list Frame.row) (r : AnalyzeProducts.row) :
  In r (AnalyzeProducts.analyze_by_category df) ->
  str_contains AnalyzeProducts.marker_summary (AnalyzeProducts.category r) = false /\
  str_contains AnalyzeProducts.marker_total (AnalyzeProducts.category r) = false.
Proof.
  unfold AnalyzeProducts.analyze_by_category. rewrite sort_values_In, filter_In, in_map_iff.
  intros (([k g] & <- & Hg) & _). simpl.
  apply groupby_In in Hg. destruct Hg as (Hk & _).
  apply (group_keys_In _ _ _ String.eqb_eq) in Hk. destruct Hk as (rc & Hrc & Hs).
  apply analyze_clean_In in Hrc. destruct Hrc as (_ & _ & _ & Hm).
  rewrite Hs in Hm. simpl in Hm. apply orb_false_iff in Hm. exact Hm.
Qed.

(** C4, at a failing input.  For the sheet [Samples.sheet_totals] the
    loader of price_analysis.py drops the subtotal row but keeps the row
    whose category is the grand-total marker, and that row becomes a
    category of the Category Summary with the sales amount 100;
    [analyze_by_category] on the same rows drops both. *)
Theorem total_marker_row_kept :
  PriceAnalysis.load_data Samples.parse_digits (Samples.single Samples.sheet_totals)
    (PriceAnalysis.input Samples.args0) (PriceAnalysis.sheet_name Samples.args0)
  = Ok Samples.cleaned_totals /\
  (exists r c, In r Samples.cleaned_totals /\ r_category r = Some c /\
     str_contains AnalyzeProducts.marker_total c = true) /\
  (exists row, In row (PriceAnalysis.cat_summary Samples.cleaned_totals) /\
     str_contains AnalyzeProducts.marker_total (Cat.category row) = true /\
     Cat.sales_amount row = of_Z 100) /\
  map AnalyzeProducts.category (AnalyzeProducts.analyze_by_category Samples.frame_totals)
  = ["A"%string].
Proof.
  split; [reflexivity|]. split; [|split].
  - exists (Samples.mk_row (Some "总计"%string) (Some "p1"%string) (of_Z 100) (of_Z 5) NaN),
      "总计"%string.
    split; [simpl; auto | split; reflexivity].
  - exists (PriceAnalysis.cat_agg ("总计"%string, rows_of_category Samples.cleaned_totals "总计"%string)).
    split; [|split].
    + apply cat_summary_In. exists "总计"%string. split; [|reflexivity].
      exists (Samples.mk_row (Some "总计"%string) (Some "p1"%string) (of_Z 100) (of_Z 5) NaN).
      split; [simpl; auto | reflexivity].
    + reflexivity.
    + apply feqb_eq. vm_compute. reflexivity.
  - vm_compute. reflexivity.
Qed.

(** ** Coercion of numeric cells *)


Lemma coerce_keys (parse : string -> option fnum) (x : raw_row) :
  row_keys (PriceAnalysis.coerce parse x) = keys_of x.
Proof. reflexivity. Qed.




Lemma rows_of_category_In (df : list Frame.row) (r : Frame.row) (c : string) :
  In r (rows_of_category df c) <-> In r df /\ r_category r = Some c.
Proof.
  unfold rows_of_category. rewrite filter_In.
  rewrite (in_group_true _ _ String.eqb_eq). tauto.
Qed.





(** ** Tiers *)

Lemma issues_In (t : list AnalyzeProducts.row) (r : AnalyzeProducts.row) :
  let i := AnalyzeProducts.identify_issues (Some t) in
  (In r (AnalyzeProducts.high_margin i) <->
     In r t /\ fge (AnalyzeProducts.rate r) (of_Z 18) = true) /\
  (In r (AnalyzeProducts.low_margin i) <->
     In r t /\ fle (AnalyzeProducts.rate r) (of_Z 5) = true) /\
  (In r (AnalyzeProducts.zero_margin i) <->
     In r t /\ fle (AnalyzeProducts.rate r) (of_Z 2) = true) /\
  (In r (AnalyzeProducts.big_low i) <->
     In r t /\ fge (AnalyzeProducts.amount r) (median (map AnalyzeProducts.amount t)) = true
            /\ flt (AnalyzeProducts.rate r) (of_Z 10) = true) /\
  (In r (AnalyzeProducts.small_high i) <->
     In r t /\ flt (AnalyzeProducts.amount r) (median (map AnalyzeProducts.amount t)) = true
            /\ fge (AnalyzeProducts.rate r) (of_Z 15) = true).
Proof.
  simpl. rewrite !filter_In, !andb_true_iff. tauto.
Qed.

Lemma export_views_In (ps : list Prod.row) (p : Prod.row) :
  (In p (PriceAnalysis.high_margin ps) <->
     In p ps /\ fge (Prod.realized_margin_rate p) (ratio 18 100) = true) /\
  (In p (PriceAnalysis.low_margin ps) <->
     In p ps /\ fle (Prod.realized_margin_rate p) (ratio 5 100) = true) /\
  (In p (PriceAnalysis.zero_margin ps) <->
     In p ps /\ fle (Prod.realized_margin_rate p) (of_Z 0) = true).
Proof.
  unfold PriceAnalysis.high_margin, PriceAnalysis.low_margin, PriceAnalysis.zero_margin.
  rewrite !sort_values_In, !filter_In. tauto.
Qed.

(** C7 (amended).  [identify_issues] puts a category in the
    zero/negative-margin tier exactly when its rate in percent is at most
    2; the zero-margin product view of [export_tables] holds a product
    exactly when its realized margin rate is at most 0. *)
Theorem zero_margin_thresholds :
  (forall t r,
     In r (AnalyzeProducts.zero_margin (AnalyzeProducts.identify_issues (Some t))) <->
     In r t /\ fle (AnalyzeProducts.rate r) (of_Z 2) = true) /\
  (forall ps p,
     In p (PriceAnalysis.zero_margin ps) <->
     In p ps /\ fle (Prod.realized_margin_rate p) (of_Z 0) = true) /\
  (forall q, fle (Fin q) (of_Z 2) = true <-> (q <= Q2Qc (inject_Z 2))%Qc) /\
  (forall q, fle (Fin q) (of_Z 0) = true <-> (q <= Q2Qc (inject_Z 0))%Qc).
Proof.
  split; [|split; [|split]].
  - intros t r. apply (issues_In t r).
  - intros ps p. apply (export_views_In ps p).
  - intros q. apply fle_Fin.
  - intros q. apply fle_Fin.
Qed.

(** C7, as stated, fails for the exported view: a product with a realized
    margin rate of one percent is below two percent and is not in the
    zero-margin view. *)
Lemma zero_margin_counterexample :
  ~ (forall p,
       In p (PriceAnalysis.zero_margin (PriceAnalysis.product_summary Samples.frame_one_percent)) <->
       In p (PriceAnalysis.product_summary Samples.frame_one_percent) /\
       fle (Prod.realized_margin_rate p) (ratio 2 100) = true).
Proof.
  intros H.
  destruct (H (PriceAnalysis.replace_row
                 (PriceAnalysis.prod_agg (("A"%string, "p1"%string),
                    rows_of_product Samples.frame_one_percent "A"%string "p1"%string))))
    as [_ H2].
  assert (Hin : In (PriceAnalysis.replace_row
                 (PriceAnalysis.prod_agg (("A"%string, "p1"%string),
                    rows_of_product Samples.frame_one_percent "A"%string "p1"%string)))
              (PriceAnalysis.zero_margin (PriceAnalysis.product_summary Samples.frame_one_percent))).
  { apply H2. split.
    - apply product_summary_In. exists "A"%string, "p1"%string. split; [|reflexivity].
      exists (Samples.mk_row (Some "A"%string) (Some "p1"%string) (of_Z 100) (of_Z 1) (ratio 1 100)).
      split; [simpl; auto | split; reflexivity].
    - vm_compute. reflexivity. }
  apply (proj2 (proj2 (export_views_In _ _))) in Hin.
  destruct Hin as (_ & Hle). vm_compute in Hle. discriminate Hle.
Qed.

(** C8.  Both high-margin selections are inclusive at the boundary: a
    category is in the high-margin tier of [identify_issues] exactly when
    its rate in percent is at least 18, a product is in the high-margin
    view of [export_tables] exactly when its realized margin rate is at
    least 18/100; an entity at exactly that rate is in. *)
Theorem high_margin_inclusive :
  (forall t r,
     In r (AnalyzeProducts.high_margin (AnalyzeProducts.identify_issues (Some t))) <->
     In r t /\ fge (AnalyzeProducts.rate r) (of_Z 18) = true) /\
  (forall ps p,
     In p (PriceAnalysis.high_margin ps) <->
     In p ps /\ fge (Prod.realized_margin_rate p) (ratio 18 100) = true) /\
  (forall q, fge (Fin q) (of_Z 18) = true <-> (Q2Qc (inject_Z 18) <= q)%Qc) /\
  (forall q, fge (Fin q) (ratio 18 100) = true <-> (Q2Qc (Qmake 18 100) <= q)%Qc) /\
  (forall t r, In r t -> AnalyzeProducts.rate r = of_Z 18 ->
     In r (AnalyzeProducts.high_margin (AnalyzeProducts.identify_issues (Some t)))) /\
  (forall ps p, In p ps -> Prod.realized_margin_rate p = ratio 18 100 ->
     In p (PriceAnalysis.high_margin ps)).
Proof.
  assert (Hps : forall ps p,
     In p (PriceAnalysis.high_margin ps) <->
     In p ps /\ fge (Prod.realized_margin_rate p) (ratio 18 100) = true).
  { intros ps p. apply (export_views_In ps p). }
  split; [|split; [|split; [|split; [|split]]]].
  - intros t r. apply (issues_In t r).
  - exact Hps.
  - intros q. apply fge_Fin.
  - intros q. apply fge_Fin.
  - intros t r Hr E. apply (issues_In t r). split; [exact Hr|].
    rewrite E. apply fge_Fin. apply Qcle_refl.
  - intros ps p Hp E. apply Hps. split; [exact Hp|].
    rewrite E. apply fge_Fin. apply Qcle_refl.
Qed.

Lemma high_margin_inclusive_witness :
  In Samples.cat_y
    (AnalyzeProducts.high_margin
       (AnalyzeProducts.identify_issues (Some [Samples.cat_x; Samples.cat_y; Samples.cat_z]))).
Proof.
  apply (proj1 (proj2 (proj2 (proj2 (proj2 high_margin_inclusive))))
           [Samples.cat_x; Samples.cat_y; Samples.cat_z] Samples.cat_y).
  - simpl. right. left. reflexivity.
  - reflexivity.
Defined.

(** ** The scenario of the specification

    Two rows of category A, the second without numbers, and an empty
    row: the cleaned table has the two rows, and category A has the sales
    amount 1000, the gross profit 50, the rate 5/100 and two products. *)
Example scenario_category_A :
  PriceAnalysis.load_data Samples.parse_digits (Samples.single Samples.sheet_scenario)
    (PriceAnalysis.input Samples.args0) (PriceAnalysis.sheet_name Samples.args0)
  = Ok Samples.cleaned_scenario /\
  exists c, PriceAnalysis.cat_summary Samples.cleaned_scenario = [c] /\
    Cat.category c = "A"%string /\
    Cat.sales_amount c = of_Z 1000 /\
    Cat.gross_profit c = of_Z 50 /\
    Cat.realized_margin_rate c = ratio 5 100 /\
    Cat.sku_count c = 2.
Proof.
  split; [reflexivity|].
  eexists. split; [reflexivity|].
  split; [reflexivity|].
  split; [apply feqb_eq; vm_compute; reflexivity|].
  split; [apply feqb_eq; vm_compute; reflexivity|].
  split; [apply feqb_eq; vm_compute; reflexivity|].
  reflexivity.
Qed.

(** ** The median

    On a column of finite values the median of [identify_issues] is a
    finite value that at least half of the entries do not exceed and at
    least half of the entries reach. *)

Lemma fle_fge_swap (x y : fnum) : fle x y = fge y x.
Proof.
  destruct x as [a| | |], y as [b| | |]; try reflexivity.
  unfold fle, fge, fcmp, Qccompare.
  rewrite <- (Qcompare_antisym a b). destruct (a ?= b)%Q; reflexivity.
Qed.

Lemma asc_leb_total (x y : fnum) : asc_leb x y = true \/ asc_leb y x = true.
Proof.
  destruct x as [a| | |], y as [b| | |]; try (left; reflexivity); try (right; reflexivity).
  cbn [asc_leb]. destruct (Qclt_le_dec a b) as [H|H].
  - left. apply fle_Fin. apply Qclt_le_weak. exact H.
  - right. apply fle_Fin. exact H.
Qed.

Lemma asc_leb_trans (x y z : fnum) :
  asc_leb x y = true -> asc_leb y z = true -> asc_leb x z = true.
Proof.
  destruct x as [a| | |], y as [b| | |], z as [c| | |];
    try reflexivity; try discriminate.
  cbn [asc_leb]. rewrite !fle_Fin. apply Qcle_trans.
Qed.

Section SortedFacts.
Context {A : Type} (leb : A -> A -> bool).
Hypothesis leb_total : forall a b, leb a b = true \/ leb b a = true.
Hypothesis leb_trans : forall a b c, leb a b = true -> leb b c = true -> leb a c = true.

Lemma insert_sorted (x : A) (l : list A) : Sorted (fun a b => leb a b = true) l -> Sorted (fun a b => leb a b = true) (insert leb x l).
Proof.
  induction 1 as [|y t Ht IH Hy]; simpl.
  - repeat constructor.
  - destruct (leb x y) eqn:E.
    + constructor; [constructor; assumption|]. constructor. exact E.
    + constructor; [exact IH|].
      destruct (leb_total x y) as [H|H]; [congruence|].
      destruct t as [|z t']; simpl.
      * constructor. exact H.
      * destruct (leb x z); constructor; [exact H|].
        inversion Hy; subst. assumption.
Qed.

Lemma isort_sorted (l : list A) : StronglySorted (fun a b => leb a b = true) (isort leb l).
Proof.
  apply Sorted_StronglySorted.
  - intros a b c. apply leb_trans.
  - induction l as [|x t IH]; simpl; [constructor|].
    apply insert_sorted. exact IH.
Qed.

Lemma leb_refl (a : A) : leb a a = true.
Proof. destruct (leb_total a a); assumption. Qed.

(** In a sorted list the entry at position [k] is reached by at least
    [k + 1] entries from below and by all but [k] entries from above. *)
Lemma sorted_count_below (l : list A) (d : A) :
  StronglySorted (fun a b => leb a b = true) l ->
  forall k, k < length l ->
    k + 1 <= length (filter (fun x => leb x (nth k l d)) l).
Proof.
  induction 1 as [|a t Ht IH Ha]; intros k Hk; simpl in Hk; [lia|].
  destruct k as [|k].
  - simpl. rewrite leb_refl. simpl. lia.
  - assert (Hk' : k < length t) by lia.
    assert (Hin : In (nth k t d) t) by (apply nth_In; exact Hk').
    rewrite Forall_forall in Ha. specialize (Ha _ Hin).
    simpl. rewrite Ha. simpl. specialize (IH k Hk'). lia.
Qed.

Lemma filter_all (p : A -> bool) (l : list A) :
  Forall (fun x => p x = true) l -> filter p l = l.
Proof.
  induction 1 as [|x t Hx _ IH]; simpl; [reflexivity|].
  rewrite Hx, IH. reflexivity.
Qed.

Lemma sorted_count_above (l : list A) (d : A) :
  StronglySorted (fun a b => leb a b = true) l ->
  forall k, k < length l ->
    length l - k <= length (filter (fun x => leb (nth k l d) x) l).
Proof.
  induction 1 as [|a t Ht IH Ha]; intros k Hk; simpl in Hk; [lia|].
  destruct k as [|k].
  - rewrite filter_all; [lia|]. simpl. constructor; [apply leb_refl | exact Ha].
  - assert (Hk' : k < length t) by lia.
    specialize (IH k Hk'). simpl.
    destruct (leb (nth k t d) a); simpl; lia.
Qed.

Lemma sorted_nth_le (l : list A) (d : A) :
  StronglySorted (fun a b => leb a b = true) l ->
  forall i j, i <= j -> j < length l -> leb (nth i l d) (nth j l d) = true.
Proof.
  induction 1 as [|a t Ht IH Ha]; intros i j Hij Hj; simpl in Hj; [lia|].
  destruct i as [|i], j as [|j]; try lia.
  - apply leb_refl.
  - simpl. rewrite Forall_forall in Ha. apply Ha. apply nth_In. lia.
  - simpl. apply IH; lia.
Qed.
End SortedFacts.

Lemma filter_length_mono {A : Type} (p q : A -> bool) (l : list A) :
  (forall x, In x l -> p x = true -> q x = true) ->
  length (filter p l) <= length (filter q l).
Proof.
  induction l as [|x t IH]; intros H; simpl; [lia|].
  assert (IH' : length (filter p t) <= length (filter q t)).
  { apply IH. intros y Hy. apply H. right. exact Hy. }
  destruct (p x) eqn:Ep.
  - rewrite (H x (or_introl eq_refl) Ep). simpl. lia.
  - destruct (q x); simpl; lia.
Qed.

Lemma filter_length_perm {A : Type} (p : A -> bool) (l l' : list A) :
  Permutation l l' -> length (filter p l) = length (filter p l').
Proof.
  induction 1 as [|x t t' _ IH|x y t|t1 t2 t3 _ IH1 _ IH2]; simpl.
  - reflexivity.
  - destruct (p x); simpl; lia.
  - destruct (p x), (p y); reflexivity.
  - lia.
Qed.

Lemma filter_map_length {A B : Type} (f : A -> B) (p : B -> bool) (l : list A) :
  length (filter p (map f l)) = length (filter (fun a => p (f a)) l).
Proof.
  induction l as [|x t IH]; simpl; [reflexivity|].
  destruct (p (f x)); simpl; lia.
Qed.

Lemma Qc_midpoint (a b : Qc) :
  (a <= b)%Qc ->
  (a <= (a + b) / Q2Qc (inject_Z 2))%Qc /\ ((a + b) / Q2Qc (inject_Z 2) <= b)%Qc.
Proof.
  intros H. unfold Qcle in *. unfold Qcdiv, Qcmult, Qcinv, Qcplus, Q2Qc in *.
  cbn [this]. rewrite !Qred_correct.
  assert (E : (/ inject_Z 2 == 1 # 2)%Q) by reflexivity.
  rewrite E. split; lra.
Qed.

Lemma count_below_pivot (w : list fnum) (k : nat) (m : fnum) :
  StronglySorted (fun a b => asc_leb a b = true) w -> k < length w ->
  asc_leb (nth k w NaN) m = true ->
  k + 1 <= length (filter (fun x => asc_leb x m) w).
Proof.
  intros Hs Hk Hm.
  apply Nat.le_trans with (length (filter (fun x => asc_leb x (nth k w NaN)) w)).
  - apply (sorted_count_below asc_leb asc_leb_total w NaN Hs k Hk).
  - apply filter_length_mono. intros x _ Hx. apply (asc_leb_trans _ _ _ Hx Hm).
Qed.

Lemma count_above_pivot (w : list fnum) (k : nat) (m : fnum) :
  StronglySorted (fun a b => asc_leb a b = true) w -> k < length w ->
  asc_leb m (nth k w NaN) = true ->
  length w - k <= length (filter (fun x => asc_leb m x) w).
Proof.
  intros Hs Hk Hm.
  apply Nat.le_trans with (length (filter (fun x => asc_leb (nth k w NaN) x) w)).
  - apply (sorted_count_above asc_leb asc_leb_total w NaN Hs k Hk).
  - apply filter_length_mono. intros x _ Hx. apply (asc_leb_trans _ _ _ Hm Hx).
Qed.

Lemma counts_of_finite (qs : list Qc) (m : Qc) :
  length (filter (fun x => asc_leb x (Fin m)) (isort asc_leb (map Fin qs)))
    = length (filter (fun q => fle (Fin q) (Fin m)) qs) /\
  length (filter (fun x => asc_leb (Fin m) x) (isort asc_leb (map Fin qs)))
    = length (filter (fun q => fge (Fin q) (Fin m)) qs).
Proof.
  split.
  - rewrite (filter_length_perm _ _ _ (isort_perm asc_leb (map Fin qs))).
    rewrite filter_map_length. reflexivity.
  - rewrite (filter_length_perm _ _ _ (isort_perm asc_leb (map Fin qs))).
    rewrite filter_map_length. f_equal. apply filter_ext. intros q.
    cbn [asc_leb]. apply fle_fge_swap.
Qed.

Theorem median_splits (qs : list Qc) :
  qs <> [] ->
  exists m, median (map Fin qs) = Fin m /\
    length qs <= 2 * length (filter (fun q => fle (Fin q) (Fin m)) qs) /\
    length qs <= 2 * length (filter (fun q => fge (Fin q) (Fin m)) qs).
Proof.
  intros Hne. unfold median.
  assert (Hall : filter notna (map Fin qs) = map Fin qs).
  { apply filter_all. apply Forall_forall. intros x Hx.
    apply in_map_iff in Hx. destruct Hx as (q & <- & _). reflexivity. }
  rewrite Hall. set (w := isort asc_leb (map Fin qs)).
  assert (Hs : StronglySorted (fun a b => asc_leb a b = true) w)
    by (apply isort_sorted; [exact asc_leb_total | exact asc_leb_trans]).
  assert (Hn : length w = length qs)
    by (unfold w; rewrite isort_length, length_map; reflexivity).
  assert (Hpos : 0 < length qs) by (destruct qs; [congruence | simpl; lia]).
  assert (Hfin : forall k, k < length w -> exists q, nth k w NaN = Fin q).
  { intros k Hk. assert (Hin : In (nth k w NaN) w) by (apply nth_In; exact Hk).
    unfold w in Hin. apply (proj1 (isort_In asc_leb _ _)) in Hin.
    apply in_map_iff in Hin.
    destruct Hin as (q & Eq & _). exists q. symmetry. exact Eq. }
  rewrite Hn. destruct (Nat.eqb_spec (length qs) 0) as [E|_]; [lia|].
  pose proof (Nat.div_mod_eq (length qs) 2) as Hdiv.
  pose proof (Nat.mod_upper_bound (length qs) 2 ltac:(lia)) as Hmod.
  destruct (Nat.even (length qs)) eqn:Ev.
  - apply Nat.even_spec in Ev. destruct Ev as (h & Eh).
    assert (Hh : length qs / 2 = h)
      by (rewrite Eh, Nat.mul_comm; apply Nat.div_mul; lia).
    rewrite Hh.
    destruct (Hfin (h - 1) ltac:(lia)) as (a & Ea).
    destruct (Hfin h ltac:(lia)) as (b & Eb).
    assert (Hab : (a <= b)%Qc).
    { apply fle_Fin.
      pose proof (sorted_nth_le asc_leb asc_leb_total w NaN Hs (h - 1) h
                    ltac:(lia) ltac:(lia)) as H.
      rewrite Ea, Eb in H. exact H. }
    destruct (Qc_midpoint a b Hab) as (Hlo & Hhi).
    rewrite Ea, Eb.
    exists ((a + b) / Q2Qc (inject_Z 2))%Qc. split; [|split].
    + cbn [fadd]. apply fdiv_Fin. intros E. discriminate E.
    + rewrite <- (proj1 (counts_of_finite qs _)). fold w.
      pose proof (count_below_pivot w (h - 1) (Fin ((a + b) / Q2Qc (inject_Z 2))%Qc)
                    Hs ltac:(lia)) as H.
      rewrite Ea in H. specialize (H (proj2 (fle_Fin _ _) Hlo)). lia.
    + rewrite <- (proj2 (counts_of_finite qs _)). fold w.
      pose proof (count_above_pivot w h (Fin ((a + b) / Q2Qc (inject_Z 2))%Qc)
                    Hs ltac:(lia)) as H.
      rewrite Eb in H. specialize (H (proj2 (fle_Fin _ _) Hhi)). lia.
  - destruct (Hfin (length qs / 2) ltac:(lia)) as (m & Em).
    rewrite Em. exists m. split; [reflexivity|]. split.
    + rewrite <- (proj1 (counts_of_finite qs _)). fold w.
      pose proof (count_below_pivot w (length qs / 2) (Fin m) Hs ltac:(lia)) as H.
      rewrite Em in H. specialize (H (proj2 (fle_Fin _ _) (Qcle_refl m))). lia.
    + rewrite <- (proj2 (counts_of_finite qs _)). fold w.
      pose proof (count_above_pivot w (length qs / 2) (Fin m) Hs ltac:(lia)) as H.
      rewrite Em in H. specialize (H (proj2 (fle_Fin _ _) (Qcle_refl m))). lia.
Qed.

Lemma median_splits_witness :
  exists m, median (map Fin [Q2Qc (inject_Z 100); Q2Qc (inject_Z 300); Q2Qc (inject_Z 500)])
            = Fin m /\
    3 <= 2 * length (filter (fun q => fle (Fin q) (Fin m))
                       [Q2Qc (inject_Z 100); Q2Qc (inject_Z 300); Q2Qc (inject_Z 500)]) /\
    3 <= 2 * length (filter (fun q => fge (Fin q) (Fin m))
                       [Q2Qc (inject_Z 100); Q2Qc (inject_Z 300); Q2Qc (inject_Z 500)]).
Proof.
  apply (median_splits [Q2Qc (inject_Z 100); Q2Qc (inject_Z 300); Q2Qc (inject_Z 500)]).
  discriminate.
Defined.

Lemma all_finite_values (l : list fnum) :
  Forall (fun x => is_finite x = true) l -> exists qs, l = map Fin qs.
Proof.
  induction 1 as [|x t Hx _ (qs & ->)].
  - exists []. reflexivity.
  - destruct x as [q| | |]; try discriminate. exists (q :: qs). reflexivity.
Qed.

(** ** The large-but-unprofitable tier *)



(* ================================================================== *)
(** * Part III.  Further properties of the code                         *)
(* ================================================================== *)

(** ** Forward fill and the loader *)

Lemma ffill_from_idempotent {A : Type} (l : list (option A)) :
  forall last, ffill_from last (ffill_from last l) = ffill_from last l.
Proof.
  induction l as [|x t IH]; intros last; [reflexivity|].
  cbn [ffill_from]. destruct x as [a|].
  - cbn [ffill_from]. f_equal. apply IH.
  - cbn [ffill_from]. destruct last as [b|]; f_equal; apply IH.
Qed.

(** X1.  Forward fill keeps the number of entries and every entry that
    is not null, never turns a filled entry back to null further down,
    and filling a filled column changes nothing. *)
Theorem ffill_invariants {A : Type} (l : list (option A)) :
  length (ffill l) = length l /\
  (forall i a, nth_error l i = Some (Some a) -> nth_error (ffill l) i = Some (Some a)) /\
  (forall i j a, i <= j -> j < length l -> nth_error (ffill l) i = Some (Some a) ->
     exists b, nth_error (ffill l) j = Some (Some b)) /\
  ffill (ffill l) = ffill l.
Proof.
  split; [apply ffill_from_length|]. split; [|split].
  - intros i a H.
    assert (Hi : i < length l) by (apply nth_error_Some; rewrite H; discriminate).
    rewrite (ffill_nth l i Hi). f_equal.
    destruct (nth_error_split l i H) as (l1 & l2 & -> & <-).
    replace (S (length l1)) with (length (l1 ++ [Some a]) + 0)
      by (rewrite length_app; simpl; lia).
    replace (l1 ++ Some a :: l2) with ((l1 ++ [Some a]) ++ l2)
      by (rewrite <- app_assoc; reflexivity).
    rewrite firstn_app_2. simpl. rewrite app_nil_r.
    clear. induction l1 as [|x t IH]; simpl; [reflexivity|]. rewrite IH. reflexivity.
  - intros i j a Hij Hj H.
    assert (Hi : i < length l) by lia.
    rewrite (ffill_nth l i Hi) in H. rewrite (ffill_nth l j Hj).
    injection H as H.
    destruct (last_valid (firstn (S j) l)) as [b|] eqn:E; [exists b; reflexivity|].
    exfalso. apply last_valid_None in E.
    assert (E' : Forall (fun c : option A => c = None) (firstn (S i) l)).
    { rewrite Forall_forall in *. intros c Hc. apply E.
      replace (S j) with (S i + (j - i)) by lia.
      rewrite <- (firstn_skipn (S i) (firstn (S i + (j - i)) l)).
      apply in_or_app. left. rewrite firstn_firstn.
      replace (Nat.min (S i) (S i + (j - i))) with (S i) by lia. exact Hc. }
    apply last_valid_None in E'.
    change (last_valid (firstn (S i) l) = Some a) in H. congruence.
  - apply ffill_from_idempotent.
Qed.

Lemma ffill_invariants_witness :
  exists b, nth_error (ffill [None; Some 1; None; None]) 3 = Some (Some b).
Proof.
  apply (proj1 (proj2 (proj2 (ffill_invariants [None; Some 1; None; None]))) 1 3 1);
    [lia | simpl; lia | reflexivity].
Defined.

Lemma getitems_first_absent (df : sheet) (cols : list string) :
  PriceAnalysis.getitems df cols =
  match first_absent cols (columns df) with
  | Some c => Raise (KeyError c)
  | None => Ok tt
  end.
Proof.
  induction cols as [|c t IH]; [reflexivity|].
  cbn [PriceAnalysis.getitems first_absent find]. unfold getitem.
  destruct (existsb (String.eqb c) (columns df)); cbn [negb bind].
  - exact IH.
  - reflexivity.
Qed.

(** X2.  The outcome of [load_data] in full: an error of [read_excel] is
    passed on; otherwise the first column that is absent, in the order
    category, product name, then the numeric columns as listed, raises
    [KeyError]; otherwise the cleaned rows are returned. *)
Theorem load_data_outcome (parse : string -> option fnum)
    (read : string -> string -> result sheet) (path sh : string) :
  PriceAnalysis.load_data parse read path sh =
  match read path sh with
  | Raise e => Raise e
  | Ok df =>
      match first_absent required_columns (columns df) with
      | Some c => Raise (KeyError c)
      | None => Ok (map (PriceAnalysis.coerce parse) (PriceAnalysis.clean_rows (rows df)))
      end
  end.
Proof.
  unfold PriceAnalysis.load_data.
  destruct (read path sh) as [df|e]; cbn [bind]; [|reflexivity].
  pose proof (getitems_first_absent df required_columns) as H.
  change (PriceAnalysis.getitems df required_columns)
    with (_ <- getitem df PriceAnalysis.col_category ;;
          _ <- getitem df PriceAnalysis.col_product_name ;;
          PriceAnalysis.getitems df PriceAnalysis.NUMERIC_COLS) in H.
  destruct (getitem df PriceAnalysis.col_category) as [u|e]; cbn [bind] in H |- *.
  - destruct (getitem df PriceAnalysis.col_product_name) as [u'|e']; cbn [bind] in H |- *.
    + rewrite H. destruct (first_absent required_columns (columns df)); reflexivity.
    + destruct (first_absent required_columns (columns df)); congruence.
  - destruct (first_absent required_columns (columns df)); congruence.
Qed.

Lemma filter_length_le {A : Type} (f : A -> bool) (l : list A) :
  length (filter f l) <= length l.
Proof.
  induction l as [|x t IH]; simpl; [lia|]. destruct (f x); simpl; lia.
Qed.

Lemma assign_category_length (df : list raw_row) :
  forall values, length (assign_category df values) <= length df.
Proof.
  induction df as [|x t IH]; intros [|c cs]; simpl; try lia.
  specialize (IH cs). lia.
Qed.

(** X3.  Every row [load_data] returns has a product name and a category
    without the subtotal marker, and there are at most as many as the
    sheet has rows. *)
Theorem load_data_rows_kept (parse : string -> option fnum)
    (read : string -> string -> result sheet) (path sh : string)
    (out : list Frame.row) :
  PriceAnalysis.load_data parse read path sh = Ok out ->
  Forall (fun r => r_product_name r <> None /\
                   str_contains PriceAnalysis.marker_summary (astype_str (r_category r)) = false)
         out /\
  exists df, read path sh = Ok df /\ length out <= length (rows df).
Proof.
  intros H. destruct (load_data_Ok _ _ _ _ _ H) as (df & Hread & ->). split.
  - apply Forall_forall. intros r Hr. apply in_map_iff in Hr.
    destruct Hr as (x & <- & Hx). apply clean_rows_In in Hx.
    destruct Hx as (_ & H1 & H2). split; assumption.
  - exists df. split; [exact Hread|]. rewrite length_map.
    unfold PriceAnalysis.clean_rows, PriceAnalysis.fill_rows.
    eapply Nat.le_trans; [apply filter_length_le|].
    eapply Nat.le_trans; [apply filter_length_le|].
    apply assign_category_length.
Qed.

Lemma load_data_rows_kept_witness :
  Forall (fun r => r_product_name r <> None /\
                   str_contains PriceAnalysis.marker_summary (astype_str (r_category r)) = false)
         Samples.cleaned_totals /\
  exists df, Samples.single Samples.sheet_totals
               (PriceAnalysis.input Samples.args0) (PriceAnalysis.sheet_name Samples.args0)
             = Ok df /\
             length Samples.cleaned_totals <= length (rows df).
Proof.
  apply (load_data_rows_kept Samples.parse_digits (Samples.single Samples.sheet_totals)
           (PriceAnalysis.input Samples.args0) (PriceAnalysis.sheet_name Samples.args0)).
  reflexivity.
Defined.

(** ** The two summaries *)

Lemma isort_adjacent {A : Type} (leb : A -> A -> bool) (l : list A) :
  (forall a b, leb a b = true \/ leb b a = true) ->
  Sorted (fun a b => leb a b = true) (isort leb l).
Proof.
  intros Htot. induction l as [|x t IH]; simpl; [constructor|].
  apply insert_sorted; assumption.
Qed.

Lemma pair_leb_total (a b : string * string) :
  pair_leb a b = true \/ pair_leb b a = true.
Proof.
  unfold pair_leb. rewrite (String.compare_antisym (fst b) (fst a)).
  destruct (String.compare (fst a) (fst b)); simpl; auto.
  apply String.leb_total.
Qed.

Lemma cat_summary_categories (df : list Frame.row) :
  map Cat.category (PriceAnalysis.cat_summary df)
  = group_keys String.eqb String.leb r_category df.
Proof.
  unfold PriceAnalysis.cat_summary, groupby. rewrite !map_map. simpl.
  apply map_id.
Qed.

Lemma product_summary_keys (df : list Frame.row) :
  map prod_key (PriceAnalysis.product_summary df)
  = group_keys pair_eqb pair_leb PriceAnalysis.product_key df.
Proof.
  unfold PriceAnalysis.product_summary, groupby. rewrite !map_map.
  unfold prod_key. simpl.
  rewrite <- (map_id (group_keys pair_eqb pair_leb PriceAnalysis.product_key df)) at 2.
  apply map_ext. intros [c n]. reflexivity.
Qed.

Lemma product_key_Some (r : Frame.row) (c n : string) :
  PriceAnalysis.product_key r = Some (c, n) <->
  r_category r = Some c /\ r_product_name r = Some n.
Proof.
  unfold PriceAnalysis.product_key.
  destruct (r_category r), (r_product_name r); split;
    try discriminate; try (intros [H1 H2]; discriminate).
  - intros H. injection H as -> ->. auto.
  - intros [H1 H2]. injection H1 as ->. injection H2 as ->. reflexivity.
Qed.

Lemma summaries_keys_NoDup (df : list Frame.row) :
  NoDup (map prod_key (PriceAnalysis.product_summary df)).
Proof.
  rewrite product_summary_keys. apply group_keys_NoDup. exact pair_eqb_spec.
Qed.

(** X4.  The Category Summary has exactly one row for each category that
    occurs in the frame, in ascending order of the category; the Product
    Summary has exactly one row for each pair of category and product
    name that occurs, in ascending order of the pair.  Rows of the frame
    with a null key add no row. *)
Theorem summaries_one_row_per_key (df : list Frame.row) :
  NoDup (map Cat.category (PriceAnalysis.cat_summary df)) /\
  Sorted (fun a b => String.leb a b = true) (map Cat.category (PriceAnalysis.cat_summary df)) /\
  (forall c, In c (map Cat.category (PriceAnalysis.cat_summary df)) <->
             exists r, In r df /\ r_category r = Some c) /\
  NoDup (map prod_key (PriceAnalysis.product_summary df)) /\
  Sorted (fun a b => pair_leb a b = true) (map prod_key (PriceAnalysis.product_summary df)) /\
  (forall c n, In (c, n) (map prod_key (PriceAnalysis.product_summary df)) <->
               exists r, In r df /\ r_category r = Some c /\ r_product_name r = Some n).
Proof.
  rewrite cat_summary_categories, product_summary_keys.
  split; [apply group_keys_NoDup; exact String.eqb_eq|].
  split; [apply isort_adjacent; exact String.leb_total|].
  split; [intros c; apply group_keys_In; exact String.eqb_eq|].
  split; [apply group_keys_NoDup; exact pair_eqb_spec|].
  split; [apply isort_adjacent; exact pair_leb_total|].
  intros c n. rewrite (group_keys_In _ _ _ pair_eqb_spec). split.
  - intros (r & Hr & Hk). apply product_key_Some in Hk. exists r. tauto.
  - intros (r & Hr & Hk). exists r. split; [exact Hr|]. apply product_key_Some. exact Hk.
Qed.

Lemma filter_map_commute {A B : Type} (f : A -> B) (p : B -> bool) (l : list A) :
  filter p (map f l) = map f (filter (fun a => p (f a)) l).
Proof.
  induction l as [|x t IH]; simpl; [reflexivity|].
  destruct (p (f x)); simpl; rewrite IH; reflexivity.
Qed.

(** X5.  The [sku_count] of a Category Summary row is the number of rows
    the Product Summary has for that category. *)
Theorem sku_count_counts_products (df : list Frame.row) (c : Cat.row) :
  In c (PriceAnalysis.cat_summary df) ->
  Cat.sku_count c = length (products_of (PriceAnalysis.product_summary df) (Cat.category c)).
Proof.
  intros Hc. apply cat_summary_In in Hc. destruct Hc as (k & _ & ->).
  cbn [PriceAnalysis.cat_agg Cat.sku_count Cat.category fst snd]. unfold nunique.
  rewrite <- (length_map Prod.product_name (products_of _ k)).
  apply Permutation_length. apply NoDup_Permutation.
  - apply dedup_NoDup. exact String.eqb_eq.
  - unfold products_of.
    replace (map Prod.product_name
               (filter (fun p => String.eqb (Prod.category p) k)
                  (PriceAnalysis.product_summary df)))
      with (map snd (filter (fun kn => String.eqb (fst kn) k)
                       (map prod_key (PriceAnalysis.product_summary df)))).
    + apply NoDup_map_NoDup_ForallPairs.
      * intros [c1 n1] [c2 n2] H1 H2 E. apply filter_In in H1, H2.
        destruct H1 as (_ & H1). destruct H2 as (_ & H2).
        apply String.eqb_eq in H1, H2. simpl in *. congruence.
      * apply NoDup_filter. apply (summaries_keys_NoDup df).
    + rewrite filter_map_commute, map_map. reflexivity.
  - intros n. rewrite (dedup_In _ String.eqb_eq), dropna_In, in_map_iff.
    unfold products_of. rewrite in_map_iff. split.
    + intros (r & Hn & Hr). apply rows_of_category_In in Hr. destruct Hr as (Hr & Hk).
      assert (Hin : In (k, n) (map prod_key (PriceAnalysis.product_summary df))).
      { rewrite product_summary_keys. apply (group_keys_In _ _ _ pair_eqb_spec).
        exists r. split; [exact Hr|]. apply product_key_Some. auto. }
      apply in_map_iff in Hin. destruct Hin as (p & Ep & Hp).
      exists p. unfold prod_key in Ep. injection Ep as Ec En. split; [exact En|].
      apply filter_In. split; [exact Hp|]. apply String.eqb_eq. exact Ec.
    + intros (p & En & Hp). apply filter_In in Hp. destruct Hp as (Hp & Ec).
      apply String.eqb_eq in Ec.
      assert (Hin : In (k, n) (map prod_key (PriceAnalysis.product_summary df))).
      { apply in_map_iff. exists p. split; [|exact Hp]. unfold prod_key. congruence. }
      rewrite product_summary_keys in Hin.
      apply (group_keys_In _ _ _ pair_eqb_spec) in Hin. destruct Hin as (r & Hr & Hk).
      apply product_key_Some in Hk. destruct Hk as (Hk & Hn).
      exists r. split; [exact Hn|]. apply rows_of_category_In. auto.
Qed.

Lemma sku_count_counts_products_witness :
  Cat.sku_count
    (PriceAnalysis.cat_agg ("A"%string, rows_of_category Samples.cleaned_scenario "A"%string))
  = length (products_of (PriceAnalysis.product_summary Samples.cleaned_scenario) "A"%string).
Proof.
  apply (sku_count_counts_products Samples.cleaned_scenario
           (PriceAnalysis.cat_agg ("A"%string, rows_of_category Samples.cleaned_scenario "A"%string))).
  apply cat_summary_In. exists "A"%string. split; [|reflexivity].
  exists (Samples.mk_row (Some "A"%string) (Some "p1"%string) (of_Z 1000) (of_Z 50) NaN).
  split; [simpl; auto | reflexivity].
Defined.

(** ** Order facts on float values *)

Lemma fle_trans (x y z : fnum) : fle x y = true -> fle y z = true -> fle x z = true.
Proof.
  destruct x as [a| | |], y as [b| | |], z as [c| | |];
    try reflexivity; try discriminate.
  rewrite !fle_Fin. apply Qcle_trans.
Qed.

Lemma fle_flt_trans (x y z : fnum) : fle x y = true -> flt y z = true -> flt x z = true.
Proof.
  destruct x as [a| | |], y as [b| | |], z as [c| | |];
    try reflexivity; try discriminate.
  rewrite fle_Fin, !flt_Fin. apply Qcle_lt_trans.
Qed.

Lemma flt_fle_trans (x y z : fnum) : flt x y = true -> fle y z = true -> flt x z = true.
Proof.
  destruct x as [a| | |], y as [b| | |], z as [c| | |];
    try reflexivity; try discriminate.
  rewrite fle_Fin, !flt_Fin. apply Qclt_le_trans.
Qed.

Lemma flt_irrefl (x : fnum) : flt x x = false.
Proof.
  destruct x as [a| | |]; try reflexivity.
  destruct (flt (Fin a) (Fin a)) eqn:E; [|reflexivity].
  apply flt_Fin in E. exfalso. apply (Qclt_not_le _ _ E). apply Qcle_refl.
Qed.

Lemma flt_fle (x y : fnum) : flt x y = true -> fle x y = true.
Proof.
  unfold flt, fle. destruct (fcmp x y) as [[| |]|]; congruence.
Qed.

Lemma fgt_flt_swap (x y : fnum) : fgt x y = flt y x.
Proof.
  destruct x as [a| | |], y as [b| | |]; try reflexivity.
  unfold fgt, flt, fcmp, Qccompare.
  rewrite <- (Qcompare_antisym b a). destruct (b ?= a)%Q; reflexivity.
Qed.

(** For values that are not NaN exactly one of [x < y] and [x >= y]
    holds. *)
Lemma flt_or_fge (x y : fnum) :
  x <> NaN -> y <> NaN -> flt x y = negb (fge x y).
Proof.
  destruct x as [a| | |], y as [b| | |]; try reflexivity; try congruence.
  intros _ _. unfold flt, fge, fcmp. destruct (a ?= b)%Qc; reflexivity.
Qed.

Lemma fge_fle_lt_false (x a b : fnum) :
  fge x a = true -> fle x b = true -> flt b a = true -> False.
Proof.
  intros H1 H2 H3. rewrite <- fle_fge_swap in H1.
  pose proof (fle_flt_trans _ _ _ (fle_trans _ _ _ H1 H2) H3) as H.
  rewrite flt_irrefl in H. discriminate.
Qed.

Lemma desc_leb_total (x y : fnum) : desc_leb x y = true \/ desc_leb y x = true.
Proof.
  destruct x as [a| | |], y as [b| | |]; try (left; reflexivity); try (right; reflexivity).
  cbn [desc_leb]. rewrite <- !fle_fge_swap.
  destruct (asc_leb_total (Fin a) (Fin b)) as [H|H]; cbn [asc_leb] in H; auto.
Qed.

Lemma desc_leb_trans (x y z : fnum) :
  desc_leb x y = true -> desc_leb y z = true -> desc_leb x z = true.
Proof.
  destruct x as [a| | |], y as [b| | |], z as [c| | |];
    try reflexivity; try discriminate.
  cbn [desc_leb]. rewrite <- !fle_fge_swap. intros H1 H2.
  apply (fle_trans _ _ _ H2 H1).
Qed.

Lemma sort_values_sorted {R : Type} (by_ : R -> fnum) (asc : bool) (df : list R) :
  StronglySorted
    (fun a b => (if asc then asc_leb else desc_leb) (by_ a) (by_ b) = true)
    (sort_values by_ asc df).
Proof.
  unfold sort_values. apply isort_sorted.
  - intros a b. destruct asc; [apply asc_leb_total | apply desc_leb_total].
  - intros a b c. destruct asc; [apply asc_leb_trans | apply desc_leb_trans].
Qed.

Lemma sort_values_perm {R : Type} (by_ : R -> fnum) (asc : bool) (df : list R) :
  Permutation (sort_values by_ asc df) df.
Proof. apply isort_perm. Qed.

(** ** The exported views *)

(** X6.  Of the three product views written by [export_tables], the
    zero-margin view is part of the low-margin view, no product is in
    both the high-margin and the low-margin view, every view holds
    products of the Product Summary only, and the high-margin view is
    in descending order of the rate, the other two in descending order
    of the sales amount. *)
Theorem export_views_relations (ps : list Prod.row) :
  incl (PriceAnalysis.zero_margin ps) (PriceAnalysis.low_margin ps) /\
  (forall p, In p (PriceAnalysis.high_margin ps) -> ~ In p (PriceAnalysis.low_margin ps)) /\
  incl (PriceAnalysis.high_margin ps) ps /\
  incl (PriceAnalysis.low_margin ps) ps /\
  StronglySorted (fun a b => desc_leb (Prod.realized_margin_rate a)
                                      (Prod.realized_margin_rate b) = true)
                 (PriceAnalysis.high_margin ps) /\
  StronglySorted (fun a b => desc_leb (Prod.sales_amount a) (Prod.sales_amount b) = true)
                 (PriceAnalysis.low_margin ps) /\
  StronglySorted (fun a b => desc_leb (Prod.sales_amount a) (Prod.sales_amount b) = true)
                 (PriceAnalysis.zero_margin ps).
Proof.
  split; [|split; [|split; [|split; [|split; [|split]]]]].
  - intros p Hp. apply (export_views_In ps p) in Hp. destruct Hp as (Hp & Hle).
    apply (export_views_In ps p). split; [exact Hp|].
    apply (fle_trans _ _ _ Hle). reflexivity.
  - intros p Hh Hl. apply (export_views_In ps p) in Hh. apply (export_views_In ps p) in Hl.
    destruct Hh as (_ & Hge). destruct Hl as (_ & Hle).
    apply (fge_fle_lt_false _ _ _ Hge Hle). reflexivity.
  - intros p Hp. apply (export_views_In ps p) in Hp. tauto.
  - intros p Hp. apply (export_views_In ps p) in Hp. tauto.
  - apply (sort_values_sorted Prod.realized_margin_rate false).
  - apply (sort_values_sorted Prod.sales_amount false).
  - apply (sort_values_sorted Prod.sales_amount false).
Qed.

Lemma frame_high_products :
  In Samples2.high_product (PriceAnalysis.product_summary Samples2.frame_high) /\
  In Samples2.unsold_product (PriceAnalysis.product_summary Samples2.frame_high).
Proof.
  split; apply product_summary_In.
  - exists "A"%string, "p1"%string. split; [|reflexivity].
    exists (Samples.mk_row (Some "A"%string) (Some "p1"%string) (of_Z 100) (of_Z 20) (ratio 20 100)).
    split; [simpl; auto | split; reflexivity].
  - exists "A"%string, "p2"%string. split; [|reflexivity].
    exists (Samples.mk_row (Some "A"%string) (Some "p2"%string) (of_Z 0) (of_Z 0) NaN).
    split; [simpl; auto | split; reflexivity].
Defined.

Lemma export_views_relations_witness :
  ~ In Samples2.high_product
       (PriceAnalysis.low_margin (PriceAnalysis.product_summary Samples2.frame_high)).
Proof.
  apply (proj1 (proj2 (export_views_relations
                         (PriceAnalysis.product_summary Samples2.frame_high)))).
  apply (proj2 (proj1 (export_views_In _ Samples2.high_product))). split.
  - exact (proj1 frame_high_products).
  - vm_compute. reflexivity.
Defined.

(** A product whose rate is missing is in none of the three views: no
    comparison holds for the missing value. *)
Lemma missing_rate_in_no_view (ps : list Prod.row) (p : Prod.row) :
  Prod.realized_margin_rate p = NaN ->
  ~ In p (PriceAnalysis.high_margin ps) /\
  ~ In p (PriceAnalysis.low_margin ps) /\
  ~ In p (PriceAnalysis.zero_margin ps).
Proof.
  intros E. split; [|split]; intros H; apply (export_views_In ps p) in H;
    destruct H as (_ & H); rewrite E in H; discriminate H.
Qed.

(** X7.  A product without sales, that is one whose sales amounts add up
    to zero, is divided by zero.  With a gross-profit sum other than
    zero the quotient is an infinity, the Product Summary holds the rate
    0 instead, and the product is written to the zero-margin and the
    low-margin view.  With a gross-profit sum of zero the quotient is
    the missing value, which stays, and the product is written to none
    of the three views. *)
Theorem unsold_product_views (df : list Frame.row) (p : Prod.row) (g : Qc) :
  In p (PriceAnalysis.product_summary df) ->
  sum_skipna (map r_sales_amount
                (rows_of_product df (Prod.category p) (Prod.product_name p))) = zero ->
  sum_skipna (map r_gross_profit
                (rows_of_product df (Prod.category p) (Prod.product_name p))) = Fin g ->
  let ps := PriceAnalysis.product_summary df in
  (g <> 0%Qc ->
     Prod.realized_margin_rate p = zero /\
     In p (PriceAnalysis.zero_margin ps) /\ In p (PriceAnalysis.low_margin ps) /\
     ~ In p (PriceAnalysis.high_margin ps)) /\
  (g = 0%Qc ->
     Prod.realized_margin_rate p = NaN /\
     ~ In p (PriceAnalysis.zero_margin ps) /\ ~ In p (PriceAnalysis.low_margin ps) /\
     ~ In p (PriceAnalysis.high_margin ps)).
Proof.
  intros Hp Hs Hg ps.
  assert (Hrate : Prod.realized_margin_rate p
                  = PriceAnalysis.replace0 (fdiv (Fin g) (Fin 0%Qc))).
  { apply product_summary_In in Hp. destruct Hp as (c & n & _ & ->).
    cbn [PriceAnalysis.replace_row PriceAnalysis.prod_agg Prod.realized_margin_rate
         Prod.category Prod.product_name fst snd] in Hs, Hg |- *.
    rewrite Hs, Hg. reflexivity. }
  destruct (fdiv_finite_cases g 0%Qc) as (_ & Hinf & Hnan).
  split.
  - intros Hne.
    assert (Hr : Prod.realized_margin_rate p = zero).
    { rewrite Hrate. apply (proj2 (replace0_spec _)). exact (Hinf eq_refl Hne). }
    split; [exact Hr|]. split; [|split].
    + apply (proj2 (proj2 (proj2 (export_views_In _ p)))). split; [exact Hp|].
      rewrite Hr. reflexivity.
    + apply (proj2 (proj1 (proj2 (export_views_In _ p)))). split; [exact Hp|].
      rewrite Hr. reflexivity.
    + intros H. apply (export_views_In ps p) in H. destruct H as (_ & H).
      rewrite Hr in H. vm_compute in H. discriminate H.
  - intros Heq.
    assert (Hr : Prod.realized_margin_rate p = NaN).
    { rewrite Hrate, (Hnan eq_refl Heq). reflexivity. }
    split; [exact Hr|].
    destruct (missing_rate_in_no_view ps p Hr) as (H1 & H2 & H3). auto.
Qed.

Lemma unsold_product_views_witness :
  (Prod.realized_margin_rate Samples2.unsold_profit_product = zero /\
   In Samples2.unsold_profit_product
      (PriceAnalysis.zero_margin (PriceAnalysis.product_summary Samples2.frame_unsold))) /\
  (Prod.realized_margin_rate Samples2.unsold_idle_product = NaN /\
   ~ In Samples2.unsold_idle_product
        (PriceAnalysis.zero_margin (PriceAnalysis.product_summary Samples2.frame_unsold))).
Proof.
  assert (Hin : In Samples2.unsold_profit_product
                  (PriceAnalysis.product_summary Samples2.frame_unsold) /\
                In Samples2.unsold_idle_product
                  (PriceAnalysis.product_summary Samples2.frame_unsold)).
  { split; apply product_summary_In.
    - exists "A"%string, "p3"%string. split; [|reflexivity].
      exists (Samples.mk_row (Some "A"%string) (Some "p3"%string) (of_Z 0) (of_Z 5) NaN).
      split; [simpl; auto | split; reflexivity].
    - exists "A"%string, "p2"%string. split; [|reflexivity].
      exists (Samples.mk_row (Some "A"%string) (Some "p2"%string) (of_Z 0) (of_Z 0) NaN).
      split; [simpl; auto | split; reflexivity]. }
  split.
  - destruct (proj1 (unsold_product_views Samples2.frame_unsold Samples2.unsold_profit_product
                       (Q2Qc (inject_Z 5)) (proj1 Hin)
                       ltac:(apply feqb_eq; vm_compute; reflexivity)
                       ltac:(apply feqb_eq; vm_compute; reflexivity)))
      as (H1 & H2 & _).
    + discriminate.
    + split; assumption.
  - destruct (proj2 (unsold_product_views Samples2.frame_unsold Samples2.unsold_idle_product
                       0%Qc (proj2 Hin)
                       ltac:(apply feqb_eq; vm_compute; reflexivity)
                       ltac:(apply feqb_eq; vm_compute; reflexivity)))
      as (H1 & H2 & _).
    + reflexivity.
    + split; assumption.
Defined.

(** ** The frames behind the figures *)

Lemma StronglySorted_app_cross {A : Type} (R : A -> A -> Prop) (l1 l2 : list A) :
  StronglySorted R (l1 ++ l2) ->
  forall a b, In a l1 -> In b l2 -> R a b.
Proof.
  induction l1 as [|x t IH]; intros Hs a b Ha Hb; [contradiction|].
  simpl in Hs. inversion Hs as [|? ? Hs' Hall]; subst.
  destruct Ha as [<-|Ha].
  - rewrite Forall_forall in Hall. apply Hall. apply in_or_app. right. exact Hb.
  - apply (IH Hs' a b Ha Hb).
Qed.

(** X8.  The frame drawn by [plot_price_trend] holds [top_n] products,
    or all of them when there are fewer, in ascending order of the sales
    amount, and they are the best sellers: the Product Summary splits
    into them and a rest none of which comes before any of them in the
    descending order of the sales amount. *)
Theorem top_products_are_best_sellers (ps : list Prod.row) (top_n : nat) :
  length (PriceAnalysisPlots.top_products ps top_n) = Nat.min top_n (length ps) /\
  StronglySorted (fun a b => asc_leb (Prod.sales_amount a) (Prod.sales_amount b) = true)
                 (PriceAnalysisPlots.top_products ps top_n) /\
  exists rest,
    Permutation ps (PriceAnalysisPlots.top_products ps top_n ++ rest) /\
    forall p q, In p (PriceAnalysisPlots.top_products ps top_n) -> In q rest ->
      desc_leb (Prod.sales_amount p) (Prod.sales_amount q) = true.
Proof.
  unfold PriceAnalysisPlots.top_products, PriceAnalysisPlots.head.
  set (sorted := sort_values Prod.sales_amount false ps).
  split; [|split].
  - unfold sort_values at 1. rewrite isort_length, length_firstn.
    unfold sorted, sort_values. rewrite isort_length. reflexivity.
  - apply (sort_values_sorted Prod.sales_amount true).
  - exists (skipn top_n sorted). split.
    + apply Permutation_trans with sorted.
      * apply Permutation_sym. apply sort_values_perm.
      * rewrite <- (firstn_skipn top_n sorted) at 1.
        apply Permutation_app_tail. apply Permutation_sym. apply sort_values_perm.
    + intros p q Hp Hq. apply sort_values_In in Hp.
      pose proof (sort_values_sorted Prod.sales_amount false ps) as Hs.
      fold sorted in Hs. rewrite <- (firstn_skipn top_n sorted) in Hs.
      apply (StronglySorted_app_cross _ _ _ Hs p q Hp Hq).
Qed.

(** ** analyze_by_category *)

Lemma analyze_by_category_In (df : list Frame.row) (r : AnalyzeProducts.row) :
  In r (AnalyzeProducts.analyze_by_category df) <->
  (exists k, In k (group_keys String.eqb String.leb snd (AnalyzeProducts.clean df)) /\
     r = AnalyzeProducts.agg
           (k, filter (in_group String.eqb snd k) (AnalyzeProducts.clean df))) /\
  fgt (AnalyzeProducts.amount r) (of_Z 0) = true.
Proof.
  unfold AnalyzeProducts.analyze_by_category.
  rewrite sort_values_In, filter_In, in_map_iff. split.
  - intros (([k g] & <- & Hg) & Hpos). split; [|exact Hpos].
    apply groupby_In in Hg. destruct Hg as (Hk & ->). exists k. auto.
  - intros ((k & Hk & ->) & Hpos). split; [|exact Hpos].
    exists (k, filter (in_group String.eqb snd k) (AnalyzeProducts.clean df)).
    split; [reflexivity|]. apply groupby_In. auto.
Qed.

Lemma round2_finite (x : fnum) : is_finite x = true -> is_finite (round2 x) = true.
Proof. destruct x; simpl; congruence. Qed.

Lemma fmul_finite (x y : fnum) :
  is_finite x = true -> is_finite y = true -> is_finite (fmul x y) = true.
Proof. destruct x, y; simpl; congruence. Qed.

Lemma rate_finite (p a : fnum) :
  is_finite p = true -> fgt a (of_Z 0) = true ->
  is_finite (round2 (fmul (fdiv p a) (of_Z 100))) = true.
Proof.
  intros Hp Ha. apply round2_finite. apply fmul_finite; [|reflexivity].
  apply fdiv_is_finite. split; [exact Hp|].
  split; intros E; rewrite E in Ha; discriminate Ha.
Qed.

(** X9.  Every row of the table [analyze_by_category] returns has an
    amount above zero, which is the sum of the sales amounts of the
    aggregated rows of its category; its rate is one hundred times the
    quotient of its profit and its amount, rounded to two decimals, and is
    finite whenever the profit is; and its category holds neither
    marker. *)
Theorem analyze_by_category_rows (df : list Frame.row) (r : AnalyzeProducts.row) :
  In r (AnalyzeProducts.analyze_by_category df) ->
  fgt (AnalyzeProducts.amount r) (of_Z 0) = true /\
  AnalyzeProducts.amount r =
    sum_skipna (map (fun rc => r_sales_amount (fst rc))
                    (filter (fun rc => in_group String.eqb snd (AnalyzeProducts.category r) rc)
                            (AnalyzeProducts.clean df))) /\
  AnalyzeProducts.rate r =
    round2 (fmul (fdiv (AnalyzeProducts.profit r) (AnalyzeProducts.amount r)) (of_Z 100)) /\
  (is_finite (AnalyzeProducts.profit r) = true -> is_finite (AnalyzeProducts.rate r) = true) /\
  AnalyzeProducts.contains_marker (Some (AnalyzeProducts.category r)) = false.
Proof.
  intros Hr. pose proof (analyze_category_no_marker df r Hr) as (Hm1 & Hm2).
  apply analyze_by_category_In in Hr. destruct Hr as ((k & Hk & ->) & Hpos).
  split; [exact Hpos|]. split; [reflexivity|]. split; [reflexivity|]. split.
  - intros Hfin. exact (rate_finite _ _ Hfin Hpos).
  - simpl in *. rewrite Hm1, Hm2. reflexivity.
Qed.

Lemma analyze_by_category_rows_witness :
  exists row, AnalyzeProducts.analyze_by_category Samples.cleaned_texts = [row] /\
    fgt (AnalyzeProducts.amount row) (of_Z 0) = true /\
    AnalyzeProducts.contains_marker (Some (AnalyzeProducts.category row)) = false.
Proof.
  eexists. split; [reflexivity|].
  refine ((fun H => conj (proj1 H) (proj2 (proj2 (proj2 (proj2 H)))))
            (analyze_by_category_rows Samples.cleaned_texts _ _)).
  left. reflexivity.
Defined.

(** Filtering the rows of a table filters its keys when the rows have
    distinct keys. *)
Lemma keys_distinct_after_filter {R K : Type} (key : R -> K) (keep : R -> bool)
    (rows : list R) (Hd : NoDup (map key rows)) :
  NoDup (map key (filter keep rows)).
Proof.
  revert Hd. induction rows as [|x rest IH]; intros Hd; cbn [filter map]; [constructor|].
  cbn [map] in Hd. apply NoDup_cons_iff in Hd. destruct Hd as (Hx & Hrest).
  destruct (keep x); [|exact (IH Hrest)].
  cbn [map]. apply NoDup_cons; [|exact (IH Hrest)].
  rewrite in_map_iff. intros (y & E & Hy). apply Hx.
  rewrite in_map_iff. exists y. split; [exact E|].
  apply filter_In in Hy. exact (proj1 Hy).
Qed.

(** X10.  The table [analyze_by_category] returns has one row for a
    category at most and is in descending order of the amount. *)
Theorem analyze_by_category_order (df : list Frame.row) :
  NoDup (map AnalyzeProducts.category (AnalyzeProducts.analyze_by_category df)) /\
  StronglySorted
    (fun a b => desc_leb (AnalyzeProducts.amount a) (AnalyzeProducts.amount b) = true)
    (AnalyzeProducts.analyze_by_category df).
Proof.
  split; [|apply (sort_values_sorted AnalyzeProducts.amount false)].
  unfold AnalyzeProducts.analyze_by_category.
  apply (Permutation_NoDup
           (Permutation_map _ (Permutation_sym (sort_values_perm AnalyzeProducts.amount false _)))).
  apply keys_distinct_after_filter. unfold groupby. rewrite !map_map. simpl. rewrite map_id.
  apply group_keys_NoDup. exact String.eqb_eq.
Qed.

(** ** calculate_metrics against analyze_by_category *)

Lemma filter_split_perm {A : Type} (p : A -> bool) (l : list A) :
  Permutation l (filter p l ++ filter (fun x => negb (p x)) l).
Proof.
  induction l as [|x t IH]; cbn [filter]; [constructor|].
  destruct (p x); cbn [negb app].
  - apply perm_skip. exact IH.
  - apply Permutation_cons_app. exact IH.
Qed.

Lemma flat_map_ext_In {A B : Type} (f g : A -> list B) (l : list A) :
  (forall a, In a l -> f a = g a) -> flat_map f l = flat_map g l.
Proof.
  induction l as [|a t IH]; intros H; cbn [flat_map]; [reflexivity|].
  rewrite (H a (or_introl eq_refl)), IH; [reflexivity|].
  intros b Hb. apply H. right. exact Hb.
Qed.

Lemma flat_map_of_map {A B C : Type} (f : B -> list C) (g : A -> B) (l : list A) :
  flat_map f (map g l) = flat_map (fun a => f (g a)) l.
Proof.
  induction l as [|a t IH]; cbn [map flat_map]; [reflexivity|].
  rewrite IH. reflexivity.
Qed.

Section GroupPartition.
Context {R K : Type} (key_eqb key_leb : K -> K -> bool) (by_ : R -> option K).
Hypothesis key_eqb_spec : forall a b, key_eqb a b = true <-> a = b.

Lemma other_group_of_rest (k k' : K) (l : list R) :
  k <> k' ->
  filter (in_group key_eqb by_ k') (filter (fun r => negb (in_group key_eqb by_ k r)) l)
  = filter (in_group key_eqb by_ k') l.
Proof.
  intros Hne. induction l as [|r t IH]; cbn [filter]; [reflexivity|].
  destruct (in_group key_eqb by_ k r) eqn:E; cbn [negb filter].
  - destruct (in_group key_eqb by_ k' r) eqn:E'; [|exact IH].
    apply (in_group_true key_eqb by_ key_eqb_spec) in E.
    apply (in_group_true key_eqb by_ key_eqb_spec) in E'.
    exfalso. apply Hne. congruence.
  - rewrite IH. reflexivity.
Qed.

(** Rows whose keys are all among distinct [ks] are, up to their order,
    the groups of these keys one after the other. *)
Lemma rows_by_keys (ks : list K) :
  NoDup ks ->
  forall l : list R,
    (forall r, In r l -> exists k, by_ r = Some k /\ In k ks) ->
    Permutation l (flat_map (fun k => filter (in_group key_eqb by_ k) l) ks).
Proof.
  induction 1 as [|k ks Hk Hnd IH]; intros l Hl.
  - destruct l as [|r t]; [constructor|].
    destruct (Hl r (or_introl eq_refl)) as (k & _ & []).
  - cbn [flat_map].
    set (rest := filter (fun r => negb (in_group key_eqb by_ k r)) l).
    apply Permutation_trans with (filter (in_group key_eqb by_ k) l ++ rest);
      [apply filter_split_perm|].
    apply Permutation_app_head.
    assert (Hrest : forall r, In r rest -> exists k', by_ r = Some k' /\ In k' ks).
    { intros r Hr. apply filter_In in Hr. destruct Hr as (Hr & Hneg).
      destruct (Hl r Hr) as (k' & Ek' & [<-|Hin]); [|exists k'; auto].
      exfalso. apply negb_true_iff in Hneg.
      rewrite (proj2 (in_group_true key_eqb by_ key_eqb_spec k r) Ek') in Hneg.
      discriminate Hneg. }
    rewrite (flat_map_ext_In (fun k' => filter (in_group key_eqb by_ k') l)
                             (fun k' => filter (in_group key_eqb by_ k') rest)).
    + apply IH. exact Hrest.
    + intros k' Hk'. unfold rest. symmetry. apply other_group_of_rest.
      intros ->. exact (Hk Hk').
Qed.

Lemma groupby_partition (l : list R) :
  (forall r, In r l -> by_ r <> None) ->
  Permutation l (flat_map snd (groupby key_eqb key_leb by_ l)).
Proof.
  intros Hl. unfold groupby. rewrite flat_map_of_map. cbn [snd].
  apply rows_by_keys.
  - apply group_keys_NoDup. exact key_eqb_spec.
  - intros r Hr. destruct (by_ r) as [k|] eqn:E.
    + exists k. split; [reflexivity|].
      apply (group_keys_In _ _ _ key_eqb_spec). exists r. auto.
    + exfalso. exact (Hl r Hr E).
Qed.

End GroupPartition.

Lemma combine_fst {A B : Type} (l : list A) :
  forall l' : list B, length l' = length l -> map fst (combine l l') = l.
Proof.
  induction l as [|x t IH]; intros [|y t'] H; simpl in *; try reflexivity; try discriminate.
  f_equal. apply IH. lia.
Qed.

Lemma sum_skipna_positive (l : list fnum) :
  l <> [] ->
  Forall (fun x => exists q, x = Fin q /\ (0 < q)%Qc) l ->
  exists q, sum_skipna l = Fin q /\ (0 < q)%Qc.
Proof.
  intros Hne H. induction H as [|x t (q & -> & Hq) Ht IH]; [congruence|].
  rewrite sum_skipna_cons. change (notna (Fin q)) with true. cbv iota.
  destruct t as [|y t'].
  - exists q. split; [|exact Hq]. change (sum_skipna []) with zero.
    apply fadd_zero_r.
  - destruct IH as (s & Es & Hs); [discriminate|]. rewrite Es. cbn [fadd].
    exists (q + s)%Qc. split; [reflexivity|].
    apply Qclt_le_trans with (q + 0)%Qc.
    + rewrite Qcplus_0_r. exact Hq.
    + apply Qcplus_le_compat; [apply Qcle_refl | apply Qclt_le_weak; exact Hs].
Qed.

Lemma filter_all_in {A : Type} (p : A -> bool) (l : list A) :
  (forall x, In x l -> p x = true) -> filter p l = l.
Proof.
  intros H. induction l as [|x t IH]; simpl; [reflexivity|].
  rewrite (H x (or_introl eq_refl)), IH; [reflexivity|].
  intros y Hy. apply H. right. exact Hy.
Qed.

Lemma is_some_true {A : Type} (o : option A) : is_some o = true -> o <> None.
Proof. destruct o; [discriminate | intros H; discriminate H]. Qed.

(** X11.  On a frame in which every row with a product name has a sales
    amount that is missing or above zero and a filled category without
    marker, [calculate_metrics] and [analyze_by_category] count the same
    sales, each once: the total amount is the sum of a column of
    amounts, the amount of every row of the table is the sum of the
    amounts of the rows aggregated for its category, and that column
    holds, up to order, the amounts of the rows aggregated for the
    categories of the table.  (Whether the two sums agree to the last
    digit is a matter of the arithmetic and is not stated.) *)
Theorem total_amount_counts_category_rows (columns : list string) (df : list Frame.row)
    (m : AnalyzeProductsReport.metrics) (t : fnum) :
  AnalyzeProductsReport.calculate_metrics columns df = Ok m ->
  AnalyzeProductsReport.total_amount m = Some t ->
  (forall r, In r df -> r_product_name r <> None ->
     r_sales_amount r = NaN \/ exists q, r_sales_amount r = Fin q /\ (0 < q)%Qc) ->
  (forall rc, In rc (combine df (ffill (map r_category df))) ->
     r_product_name (fst rc) <> None ->
     exists c, snd rc = Some c /\ AnalyzeProducts.contains_marker (Some c) = false) ->
  let aggregated := fun r : AnalyzeProducts.row =>
    map (fun rc => r_sales_amount (fst rc))
        (filter (in_group String.eqb snd (AnalyzeProducts.category r))
                (AnalyzeProducts.clean df)) in
  let amounts :=
    filter notna (map r_sales_amount (filter (fun r => is_some (r_product_name r)) df)) in
  t = fsum amounts /\
  (forall r, In r (AnalyzeProducts.analyze_by_category df) ->
     AnalyzeProducts.amount r = fsum (aggregated r)) /\
  Permutation amounts (flat_map aggregated (AnalyzeProducts.analyze_by_category df)).
Proof.
  intros Hm Ht Hpos Hcat aggregated amounts.
  set (named := fun rc : Frame.row * option string => is_some (r_product_name (fst rc))).
  set (amt := fun rc : Frame.row * option string => r_sales_amount (fst rc)).
  set (filled := combine df (ffill (map r_category df))).
  assert (Hfst : map fst filled = df).
  { apply combine_fst. unfold ffill. rewrite ffill_from_length, length_map. reflexivity. }
  (* the total of calculate_metrics *)
  assert (Et : t = fsum amounts).
  { unfold AnalyzeProductsReport.calculate_metrics in Hm.
    destruct (AnalyzeProductsReport.has_column columns PriceAnalysis.col_product_name);
      [|discriminate].
    injection Hm as <-. cbn [AnalyzeProductsReport.total_amount] in Ht.
    destruct (AnalyzeProductsReport.has_column columns PriceAnalysis.col_sales_amount);
      [|discriminate].
    injection Ht as <-. reflexivity. }
  (* the rows aggregated *)
  assert (Hclean : AnalyzeProducts.clean df = filter (fun rc => notna (amt rc)) (filter named filled)).
  { unfold AnalyzeProducts.clean. fold filled. apply filter_all_in.
    intros rc Hrc. apply filter_In in Hrc. destruct Hrc as (Hrc & _).
    apply filter_In in Hrc. destruct Hrc as (Hrc & Hn).
    destruct (Hcat rc Hrc (is_some_true _ Hn)) as (c & Ec & Hc).
    rewrite Ec, Hc. reflexivity. }
  assert (Hrow : forall rc, In rc (AnalyzeProducts.clean df) ->
            (exists c, snd rc = Some c) /\ exists q, amt rc = Fin q /\ (0 < q)%Qc).
  { intros rc Hrc. rewrite Hclean in Hrc. apply filter_In in Hrc.
    destruct Hrc as (Hrc & Hna). apply filter_In in Hrc. destruct Hrc as (Hrc & Hn).
    assert (Hn' : r_product_name (fst rc) <> None) by exact (is_some_true _ Hn).
    split.
    - destruct (Hcat rc Hrc Hn') as (c & Ec & _). exists c. exact Ec.
    - destruct (Hpos (fst rc)) as [E|H]; [|exact Hn'| |exact H].
      + rewrite <- Hfst. apply in_map. exact Hrc.
      + unfold amt in Hna. rewrite E in Hna. discriminate Hna. }
  (* every group has an amount above zero *)
  assert (Hkeep : filter (fun r => fgt (AnalyzeProducts.amount r) (of_Z 0))
                    (map AnalyzeProducts.agg
                       (groupby String.eqb String.leb snd (AnalyzeProducts.clean df)))
                  = map AnalyzeProducts.agg
                      (groupby String.eqb String.leb snd (AnalyzeProducts.clean df))).
  { apply filter_all_in. intros r Hr. apply in_map_iff in Hr.
    destruct Hr as ([k g] & <- & Hg).
    pose proof (groupby_nonempty _ _ _ String.eqb_eq _ _ _ Hg) as Hne.
    apply groupby_In in Hg. destruct Hg as (_ & Eg).
    destruct (sum_skipna_positive (map amt g)) as (q & Eq & Hq).
    - destruct g; [congruence | discriminate].
    - apply Forall_forall. intros x Hx. apply in_map_iff in Hx.
      destruct Hx as (rc & <- & Hrc). apply Hrow. rewrite Eg in Hrc.
      apply filter_In in Hrc. tauto.
    - cbn [AnalyzeProducts.agg AnalyzeProducts.amount fst snd]. fold amt. rewrite Eq.
      unfold fgt, fcmp, of_Z. apply Qcgt_alt in Hq.
      change (Q2Qc (inject_Z 0)) with 0%Qc. rewrite Hq. reflexivity. }
  split; [exact Et|]. split.
  - intros r Hr. apply analyze_by_category_In in Hr. destruct Hr as ((k & _ & ->) & _).
    unfold aggregated.
    cbn [AnalyzeProducts.agg AnalyzeProducts.amount AnalyzeProducts.category fst snd].
    unfold sum_skipna. f_equal. apply filter_all_in.
    intros x Hx. apply in_map_iff in Hx. destruct Hx as (rc & <- & Hrc).
    apply filter_In in Hrc. destruct Hrc as (Hrc & _).
    destruct (proj2 (Hrow rc Hrc)) as (q & Eq & _). fold (amt rc). rewrite Eq. reflexivity.
  - (* the column summed by calculate_metrics is the amounts of the cleaned rows *)
    assert (Eamounts : amounts = map amt (AnalyzeProducts.clean df)).
    { unfold amounts. rewrite Hclean, <- Hfst.
      rewrite (filter_map_commute fst (fun r => is_some (r_product_name r))), map_map.
      fold named. fold amt.
      change (fun x : Frame.row * option string => r_sales_amount (fst x)) with amt.
      rewrite (filter_map_commute amt notna). reflexivity. }
    rewrite Eamounts.
    unfold AnalyzeProducts.analyze_by_category.
    apply Permutation_trans with
      (flat_map aggregated
         (map AnalyzeProducts.agg
            (groupby String.eqb String.leb snd (AnalyzeProducts.clean df)))).
    + rewrite flat_map_of_map.
      rewrite (flat_map_ext_In
                 (fun g => aggregated (AnalyzeProducts.agg g))
                 (fun g => map amt (snd g))).
      * rewrite <- (flat_map_of_map (map amt) snd), flat_map_concat_map, <- concat_map,
          <- flat_map_concat_map.
        apply Permutation_map. apply (groupby_partition _ _ _ String.eqb_eq).
        intros rc Hrc. destruct (proj1 (Hrow rc Hrc)) as (c & ->). discriminate.
      * intros [k g] Hg. apply groupby_In in Hg. destruct Hg as (_ & ->). reflexivity.
    + apply Permutation_flat_map. rewrite <- Hkeep at 1.
      apply Permutation_sym. apply (sort_values_perm AnalyzeProducts.amount false).
Qed.

Lemma total_amount_counts_category_rows_witness :
  sum_skipna (map r_sales_amount
                (filter (fun r => is_some (r_product_name r)) Samples.cleaned_texts))
  = fsum (filter notna
            (map r_sales_amount
               (filter (fun r => is_some (r_product_name r)) Samples.cleaned_texts))) /\
  Permutation
    (filter notna
       (map r_sales_amount
          (filter (fun r => is_some (r_product_name r)) Samples.cleaned_texts)))
    (flat_map
       (fun r : AnalyzeProducts.row =>
          map (fun rc => r_sales_amount (fst rc))
              (filter (in_group String.eqb snd (AnalyzeProducts.category r))
                      (AnalyzeProducts.clean Samples.cleaned_texts)))
       (AnalyzeProducts.analyze_by_category Samples.cleaned_texts)).
Proof.
  refine ((fun H => conj (proj1 H) (proj2 (proj2 H)))
            (total_amount_counts_category_rows Samples.all_columns Samples.cleaned_texts
               _ _ eq_refl eq_refl _ _)).
  - simpl. intros r [<-|[<-|[]]] _.
    + right. exists (Q2Qc (inject_Z 100)). split; reflexivity.
    + left. reflexivity.
  - simpl. intros rc [<-|[<-|[]]] _; exists "A"%string; split; reflexivity.
Defined.

(** ** The tiers of identify_issues *)

Lemma fge_mono (x a b : fnum) : fge x a = true -> fle b a = true -> fge x b = true.
Proof.
  rewrite <- !fle_fge_swap. intros H1 H2. apply (fle_trans _ _ _ H2 H1).
Qed.

(** X12.  Among the tiers of [identify_issues]: every zero-margin
    category is also a low-margin category; a high-margin category is
    neither low-margin nor large-but-unprofitable; no category is both
    large-but-unprofitable and potential; every potential category is on
    the small side and every tier holds rows of the table only.  Without
    a table, or for an empty one, every tier is empty. *)
Theorem tier_relations (t : list AnalyzeProducts.row) :
  let i := AnalyzeProducts.identify_issues (Some t) in
  incl (AnalyzeProducts.zero_margin i) (AnalyzeProducts.low_margin i) /\
  (forall r, In r (AnalyzeProducts.high_margin i) ->
     ~ In r (AnalyzeProducts.low_margin i) /\ ~ In r (AnalyzeProducts.big_low i)) /\
  (forall r, In r (AnalyzeProducts.big_low i) -> ~ In r (AnalyzeProducts.small_high i)) /\
  (incl (AnalyzeProducts.high_margin i) t /\ incl (AnalyzeProducts.low_margin i) t /\
   incl (AnalyzeProducts.big_low i) t /\ incl (AnalyzeProducts.small_high i) t) /\
  AnalyzeProducts.identify_issues None = AnalyzeProducts.no_issues /\
  AnalyzeProducts.identify_issues (Some []) = AnalyzeProducts.no_issues.
Proof.
  intros i. split; [|split; [|split; [|split; [|split]]]].
  - intros r Hr. apply (issues_In t r) in Hr. destruct Hr as (Hr & Hle).
    apply (issues_In t r). split; [exact Hr|].
    apply (fle_trans _ _ _ Hle). reflexivity.
  - intros r Hr. apply (issues_In t r) in Hr. destruct Hr as (_ & Hge). split.
    + intros Hl. apply (issues_In t r) in Hl. destruct Hl as (_ & Hle).
      apply (fge_fle_lt_false _ _ _ Hge Hle). reflexivity.
    + intros Hb. apply (issues_In t r) in Hb. destruct Hb as (_ & _ & Hlt).
      apply (fge_fle_lt_false _ _ _ Hge (flt_fle _ _ Hlt)). reflexivity.
  - intros r Hb Hs. apply (issues_In t r) in Hb. apply (issues_In t r) in Hs.
    destruct Hb as (_ & _ & Hlt). destruct Hs as (_ & _ & Hge).
    apply (fge_fle_lt_false _ _ _ Hge (flt_fle _ _ Hlt)). reflexivity.
  - repeat split; intros r Hr; apply (issues_In t r) in Hr; tauto.
  - reflexivity.
  - reflexivity.
Qed.

Lemma tier_relations_witness :
  ~ In Samples.cat_y
       (AnalyzeProducts.low_margin
          (AnalyzeProducts.identify_issues (Some [Samples.cat_x; Samples.cat_y; Samples.cat_z]))).
Proof.
  apply (proj1 (proj2 (tier_relations [Samples.cat_x; Samples.cat_y; Samples.cat_z]))
           Samples.cat_y).
  apply (proj2 (proj1 (issues_In _ Samples.cat_y))). split.
  - simpl. right. left. reflexivity.
  - reflexivity.
Defined.

(** X13.  For a table with rows whose amounts are all finite, at least
    half of the rows pass the test on the amount of the
    large-but-unprofitable tier (amount at least the median) and at most
    half pass the test of the potential tier (amount below the
    median). *)
Theorem median_halves_the_table (t : list AnalyzeProducts.row) :
  t <> [] ->
  Forall (fun r => is_finite (AnalyzeProducts.amount r) = true) t ->
  let median_amount := median (map AnalyzeProducts.amount t) in
  length t <= 2 * length (filter (fun r => fge (AnalyzeProducts.amount r) median_amount) t) /\
  2 * length (filter (fun r => flt (AnalyzeProducts.amount r) median_amount) t) <= length t.
Proof.
  intros Hne Hfin median_amount.
  destruct (all_finite_values (map AnalyzeProducts.amount t)) as (qs & Eqs).
  { apply Forall_forall. intros x Hx. apply in_map_iff in Hx.
    destruct Hx as (r & <- & Hr). rewrite Forall_forall in Hfin. apply Hfin. exact Hr. }
  assert (Hlen : length qs = length t).
  { rewrite <- (length_map Fin qs), <- Eqs, length_map. reflexivity. }
  destruct (median_splits qs) as (m & Em & _ & Hge).
  { intros ->. destruct t; [congruence | discriminate]. }
  unfold median_amount. rewrite Eqs, Em.
  assert (Elarge : length (filter (fun r => fge (AnalyzeProducts.amount r) (Fin m)) t)
                   = length (filter (fun q => fge (Fin q) (Fin m)) qs)).
  { rewrite <- (filter_map_length AnalyzeProducts.amount (fun x => fge x (Fin m))).
    rewrite Eqs. apply filter_map_length. }
  assert (Esmall : length (filter (fun r => flt (AnalyzeProducts.amount r) (Fin m)) t)
                   + length (filter (fun r => fge (AnalyzeProducts.amount r) (Fin m)) t)
                   = length t).
  { clear - Hfin. induction Hfin as [|r t' Hr _ IH]; simpl; [reflexivity|].
    rewrite (flt_or_fge (AnalyzeProducts.amount r) (Fin m)).
    - destruct (fge (AnalyzeProducts.amount r) (Fin m)); simpl; lia.
    - intros E. rewrite E in Hr. discriminate.
    - discriminate. }
  rewrite Elarge in *. split; lia.
Qed.

Lemma median_halves_the_table_witness :
  3 <= 2 * length (filter (fun r => fge (AnalyzeProducts.amount r)
                                        (median (map AnalyzeProducts.amount
                                                   [Samples.cat_x; Samples.cat_y; Samples.cat_z])))
                          [Samples.cat_x; Samples.cat_y; Samples.cat_z]) /\
  2 * length (filter (fun r => flt (AnalyzeProducts.amount r)
                                   (median (map AnalyzeProducts.amount
                                              [Samples.cat_x; Samples.cat_y; Samples.cat_z])))
                     [Samples.cat_x; Samples.cat_y; Samples.cat_z]) <= 3.
Proof.
  apply (median_halves_the_table [Samples.cat_x; Samples.cat_y; Samples.cat_z]).
  - discriminate.
  - repeat constructor.
Defined.

(** ** Chart data of create_visualizations *)

Lemma four_way_split {A : Type} (a b : A -> bool) (l : list A) :
  Permutation l
    (filter (fun x => a x && b x) l ++ filter (fun x => negb (a x) && b x) l
     ++ filter (fun x => negb (a x) && negb (b x)) l
     ++ filter (fun x => a x && negb (b x)) l).
Proof.
  induction l as [|x t IH]; simpl; [constructor|].
  destruct (a x), (b x); simpl.
  - apply perm_skip. exact IH.
  - rewrite !app_assoc. apply Permutation_cons_app. rewrite <- !app_assoc. exact IH.
  - apply Permutation_cons_app. exact IH.
  - rewrite app_assoc. apply Permutation_cons_app. rewrite <- app_assoc. exact IH.
Qed.

(** X14.  When no amount and no rate of the table is NaN and the median
    amount is a value, the four quadrants of chart 6 hold every row of
    the table exactly once.  In any case the fourth quadrant is the
    large-but-unprofitable tier of [identify_issues] and the second
    quadrant holds every potential category. *)
Theorem quadrants_partition (t : list AnalyzeProducts.row) :
  (median (map AnalyzeProducts.amount t) <> NaN ->
   Forall (fun r => AnalyzeProducts.amount r <> NaN /\ AnalyzeProducts.rate r <> NaN) t ->
   Permutation t
     (AnalyzeProductsReport.q1 (AnalyzeProductsReport.four_quadrants t)
      ++ AnalyzeProductsReport.q2 (AnalyzeProductsReport.four_quadrants t)
      ++ AnalyzeProductsReport.q3 (AnalyzeProductsReport.four_quadrants t)
      ++ AnalyzeProductsReport.q4 (AnalyzeProductsReport.four_quadrants t))) /\
  AnalyzeProductsReport.q4 (AnalyzeProductsReport.four_quadrants t)
    = AnalyzeProducts.big_low (AnalyzeProducts.identify_issues (Some t)) /\
  incl (AnalyzeProducts.small_high (AnalyzeProducts.identify_issues (Some t)))
       (AnalyzeProductsReport.q2 (AnalyzeProductsReport.four_quadrants t)).
Proof.
  split; [|split].
  - intros Hmed Hall.
    eapply Permutation_trans;
      [apply (four_way_split
                (fun r => fge (AnalyzeProducts.amount r) (median (map AnalyzeProducts.amount t)))
                (fun r => fge (AnalyzeProducts.rate r) (of_Z 10)))|].
    cbn [AnalyzeProductsReport.four_quadrants AnalyzeProductsReport.q1
         AnalyzeProductsReport.q2 AnalyzeProductsReport.q3 AnalyzeProductsReport.q4].
    rewrite Forall_forall in Hall.
    assert (Ha : forall r, In r t ->
              flt (AnalyzeProducts.amount r) (median (map AnalyzeProducts.amount t))
              = negb (fge (AnalyzeProducts.amount r) (median (map AnalyzeProducts.amount t)))).
    { intros r Hr. apply flt_or_fge; [apply (Hall r Hr) | exact Hmed]. }
    assert (Hb : forall r, In r t ->
              flt (AnalyzeProducts.rate r) (of_Z 10)
              = negb (fge (AnalyzeProducts.rate r) (of_Z 10))).
    { intros r Hr. apply flt_or_fge; [apply (Hall r Hr) | discriminate]. }
    apply Permutation_app_head.
    rewrite (filter_ext_in _ _ t
               (fun r Hr => f_equal (fun b => b && fge (AnalyzeProducts.rate r) (of_Z 10))
                                    (eq_sym (Ha r Hr)))).
    apply Permutation_app_head.
    rewrite (filter_ext_in
               (fun r => negb (fge (AnalyzeProducts.amount r) (median (map AnalyzeProducts.amount t)))
                         && negb (fge (AnalyzeProducts.rate r) (of_Z 10)))
               (fun r => flt (AnalyzeProducts.amount r) (median (map AnalyzeProducts.amount t))
                         && flt (AnalyzeProducts.rate r) (of_Z 10)) t).
    + apply Permutation_app_head.
      rewrite (filter_ext_in
                 (fun r => fge (AnalyzeProducts.amount r) (median (map AnalyzeProducts.amount t))
                           && negb (fge (AnalyzeProducts.rate r) (of_Z 10)))
                 (fun r => fge (AnalyzeProducts.amount r) (median (map AnalyzeProducts.amount t))
                           && flt (AnalyzeProducts.rate r) (of_Z 10)) t).
      * apply Permutation_refl.
      * intros r Hr. rewrite (Hb r Hr). reflexivity.
    + intros r Hr. rewrite (Ha r Hr), (Hb r Hr). reflexivity.
  - reflexivity.
  - intros r Hr. apply (issues_In t r) in Hr. destruct Hr as (Hr & Hlt & Hge).
    cbn [AnalyzeProductsReport.four_quadrants AnalyzeProductsReport.q2].
    apply filter_In. split; [exact Hr|]. rewrite Hlt. simpl.
    apply (fge_mono _ _ _ Hge). reflexivity.
Qed.

Lemma quadrants_partition_witness :
  Permutation [Samples.cat_x; Samples.cat_y; Samples.cat_z]
    (AnalyzeProductsReport.q1 (AnalyzeProductsReport.four_quadrants
                                 [Samples.cat_x; Samples.cat_y; Samples.cat_z])
     ++ AnalyzeProductsReport.q2 (AnalyzeProductsReport.four_quadrants
                                    [Samples.cat_x; Samples.cat_y; Samples.cat_z])
     ++ AnalyzeProductsReport.q3 (AnalyzeProductsReport.four_quadrants
                                    [Samples.cat_x; Samples.cat_y; Samples.cat_z])
     ++ AnalyzeProductsReport.q4 (AnalyzeProductsReport.four_quadrants
                                    [Samples.cat_x; Samples.cat_y; Samples.cat_z])).
Proof.
  apply (proj1 (quadrants_partition [Samples.cat_x; Samples.cat_y; Samples.cat_z])).
  - apply feqb_neq. vm_compute. reflexivity.
  - repeat constructor; discriminate.
Defined.

(** ** The health bands of generate_report *)

(** X15.  When no rate of the table is NaN, every category is in exactly
    one of the three health bands: the counts of healthy, warning and
    danger categories add up to the number of rows.  In any case a
    category counted as danger is in the low-margin tier and a
    high-margin category is counted as healthy. *)
Theorem health_bands_partition (t : list AnalyzeProducts.row) :
  (Forall (fun r => AnalyzeProducts.rate r <> NaN) t ->
   AnalyzeProductsReport.healthy_count t + AnalyzeProductsReport.warning_count t
   + AnalyzeProductsReport.danger_count t = length t) /\
  (forall r, In r t -> flt (AnalyzeProducts.rate r) (of_Z 5) = true ->
     In r (AnalyzeProducts.low_margin (AnalyzeProducts.identify_issues (Some t)))) /\
  (forall r, In r (AnalyzeProducts.high_margin (AnalyzeProducts.identify_issues (Some t))) ->
     fge (AnalyzeProducts.rate r) (of_Z 10) = true).
Proof.
  split; [|split].
  - unfold AnalyzeProductsReport.healthy_count, AnalyzeProductsReport.warning_count,
      AnalyzeProductsReport.danger_count.
    induction 1 as [|r t' Hr _ IH]; simpl; [reflexivity|].
    rewrite (flt_or_fge (AnalyzeProducts.rate r) (of_Z 10) Hr) by discriminate.
    rewrite (flt_or_fge (AnalyzeProducts.rate r) (of_Z 5) Hr) by discriminate.
    destruct (fge (AnalyzeProducts.rate r) (of_Z 10)) eqn:E10.
    + rewrite (fge_mono _ _ (of_Z 5) E10) by reflexivity. simpl. lia.
    + destruct (fge (AnalyzeProducts.rate r) (of_Z 5)); simpl; lia.
  - intros r Hr Hlt. apply (issues_In t r). split; [exact Hr|]. apply flt_fle. exact Hlt.
  - intros r Hr. apply (issues_In t r) in Hr. destruct Hr as (_ & Hge).
    apply (fge_mono _ _ _ Hge). reflexivity.
Qed.

Lemma health_bands_partition_witness :
  AnalyzeProductsReport.healthy_count [Samples.cat_x; Samples.cat_y; Samples.cat_z]
  + AnalyzeProductsReport.warning_count [Samples.cat_x; Samples.cat_y; Samples.cat_z]
  + AnalyzeProductsReport.danger_count [Samples.cat_x; Samples.cat_y; Samples.cat_z] = 3.
Proof.
  apply (proj1 (health_bands_partition [Samples.cat_x; Samples.cat_y; Samples.cat_z])).
  repeat constructor; discriminate.
Defined.

Lemma flt_Fin_false (a b : Qc) : flt (Fin a) (Fin b) = false <-> (b <= a)%Qc.
Proof.
  split.
  - intros H. destruct (Qclt_le_dec a b) as [Hlt|Hle]; [|exact Hle].
    apply flt_Fin in Hlt. congruence.
  - intros H. destruct (flt (Fin a) (Fin b)) eqn:E; [|reflexivity].
    apply flt_Fin in E. exfalso. apply (Qclt_not_le _ _ E H).
Qed.

Ltac flt_cases :=
  repeat match goal with
         | |- context [flt (Fin ?a) (Fin ?b)] =>
             let E := fresh "E" in
             destruct (flt (Fin a) (Fin b)) eqn:E;
             [apply flt_Fin in E | apply flt_Fin_false in E]
         end.

Lemma chart_colors_agree_finite (x : Qc) :
  AnalyzeProductsReport.amount_chart_color (Fin x) = AnalyzeProductsReport.rate_chart_color (Fin x)
  <-> x <> Q2Qc (Qmake 5 100) /\ x <> Q2Qc (Qmake 10 100).
Proof.
  unfold AnalyzeProductsReport.amount_chart_color, AnalyzeProductsReport.rate_chart_color.
  rewrite !fgt_flt_swap. unfold ratio.
  set (c5 := Q2Qc (5 # 100)). set (c10 := Q2Qc (10 # 100)). set (c15 := Q2Qc (15 # 100)).
  assert (H510 : (c5 < c10)%Qc) by reflexivity.
  assert (H1015 : (c10 < c15)%Qc) by reflexivity.
  flt_cases.
  all: unfold Qclt, Qcle in *.
  all: try (exfalso; lra).
  all: (split;
        [ intros HH; try discriminate HH; split; intros ->;
          unfold c5, c10, c15 in *; cbn in *; lra
        | intros [N1 N2]; try reflexivity ]).
  all: exfalso.
  all: try (apply N1; apply Qc_is_canon; apply Qle_antisym; assumption).
  all: try (apply N2; apply Qc_is_canon; apply Qle_antisym; assumption).
Qed.

(** X16.  Charts 1 and 2 of [create_visualizations] colour a bar by the
    same rate with two different chains of tests.  The two colours are
    the same for every rate except three: a rate of exactly 5/100 is
    orange in chart 1 and red in chart 2, a rate of exactly 10/100 is
    blue in chart 1 and orange in chart 2, and a missing rate is blue in
    chart 1 and red in chart 2. *)
Theorem chart_colors_agree (x : fnum) :
  (AnalyzeProductsReport.amount_chart_color x = AnalyzeProductsReport.rate_chart_color x
   <-> x <> ratio 5 100 /\ x <> ratio 10 100 /\ x <> NaN) /\
  AnalyzeProductsReport.amount_chart_color (ratio 5 100) = AnalyzeProductsReport.Orange /\
  AnalyzeProductsReport.rate_chart_color (ratio 5 100) = AnalyzeProductsReport.Red /\
  AnalyzeProductsReport.amount_chart_color (ratio 10 100) = AnalyzeProductsReport.Blue /\
  AnalyzeProductsReport.rate_chart_color (ratio 10 100) = AnalyzeProductsReport.Orange /\
  AnalyzeProductsReport.amount_chart_color NaN = AnalyzeProductsReport.Blue /\
  AnalyzeProductsReport.rate_chart_color NaN = AnalyzeProductsReport.Red.
Proof.
  split; [|repeat split; reflexivity].
  destruct x as [q| | |].
  - rewrite chart_colors_agree_finite. unfold ratio. split.
    + intros [H1 H2]. split; [congruence|]. split; [congruence | discriminate].
    + intros (H1 & H2 & _). split; congruence.
  - split; [intros _; repeat split; discriminate | reflexivity].
  - split; [intros _; repeat split; discriminate | reflexivity].
  - split; [discriminate | intros (_ & _ & H); congruence].
Qed.

(** ** The amount text of an issue entry *)

Lemma remove_commas_app (s1 s2 : string) :
  AnalyzeProductsReport.remove_commas (s1 ++ s2)
  = (AnalyzeProductsReport.remove_commas s1 ++ AnalyzeProductsReport.remove_commas s2)%string.
Proof.
  induction s1 as [|c t IH]; simpl; [reflexivity|].
  destruct (Ascii.eqb c ","); simpl; rewrite IH; reflexivity.
Qed.

Lemma remove_commas_group3 (s : string) :
  AnalyzeProductsReport.remove_commas (AnalyzeProductsReport.group3 s)
  = AnalyzeProductsReport.remove_commas s.
Proof.
  induction s as [|c t IH]; [reflexivity|].
  cbn [AnalyzeProductsReport.group3 AnalyzeProductsReport.remove_commas].
  destruct (negb (Nat.eqb (String.length t) 0) && Nat.eqb (Nat.modulo (String.length t) 3) 0);
    cbn [AnalyzeProductsReport.remove_commas]; rewrite ?IH;
    change (Ascii.eqb "," ",") with true; cbv iota; rewrite ?IH; reflexivity.
Qed.

Lemma remove_commas_uint (d : Decimal.uint) :
  AnalyzeProductsReport.remove_commas (NilEmpty.string_of_uint d) = NilEmpty.string_of_uint d.
Proof.
  induction d; simpl; rewrite ?IHd; reflexivity.
Qed.

Lemma remove_commas_digits (z : Z) :
  AnalyzeProductsReport.remove_commas (AnalyzeProductsReport.digits z)
  = AnalyzeProductsReport.digits z.
Proof.
  unfold AnalyzeProductsReport.digits.
  destruct z as [|p|p]; [reflexivity| |]; cbn [Z.to_int NilZero.string_of_int];
    unfold NilZero.string_of_uint;
    pose proof (DecimalPos.Unsigned.to_uint_nonnil p) as Hp;
    destruct (Pos.to_uint p) eqn:E; try congruence; rewrite <- E;
    cbn [AnalyzeProductsReport.remove_commas]; rewrite ?remove_commas_uint; reflexivity.
Qed.

Lemma signed_digits (z : Z) :
  ((if (z <? 0)%Z then "-" else "") ++ AnalyzeProductsReport.digits (Z.abs z))%string
  = AnalyzeProductsReport.digits z.
Proof. destruct z; reflexivity. Qed.

Lemma to_int_proper (z : Z) : Z.to_int z <> Decimal.Pos Decimal.Nil /\ Z.to_int z <> Decimal.Neg Decimal.Nil.
Proof.
  destruct z as [|p|p]; simpl; split; try discriminate;
    intros E; injection E as E; apply (DecimalPos.Unsigned.to_uint_nonnil p E).
Qed.

Lemma to_float_digits (z : Z) :
  AnalyzeProductsReport.to_float (AnalyzeProductsReport.digits z) = Some (of_Z z).
Proof.
  unfold AnalyzeProductsReport.to_float, AnalyzeProductsReport.digits.
  destruct (to_int_proper z) as (H1 & H2).
  pose proof (NilZero.isi (Z.to_int z) H1 H2) as Hisi.
  destruct (String.eqb_spec (NilZero.string_of_int (Z.to_int z)) "inf") as [E|_];
    [rewrite E in Hisi; discriminate Hisi|].
  destruct (String.eqb_spec (NilZero.string_of_int (Z.to_int z)) "-inf") as [E|_];
    [rewrite E in Hisi; discriminate Hisi|].
  destruct (String.eqb_spec (NilZero.string_of_int (Z.to_int z)) "nan") as [E|_];
    [rewrite E in Hisi; discriminate Hisi|].
  rewrite Hisi. simpl. rewrite DecimalZ.of_to. reflexivity.
Qed.

Lemma amount_text_trip (q : Qc) :
  AnalyzeProductsReport.to_float
    (AnalyzeProductsReport.remove_commas (AnalyzeProductsReport.format_thousands (Fin q)))
  = Some (of_Z (round_half_even q)).
Proof.
  cbn [AnalyzeProductsReport.format_thousands].
  rewrite remove_commas_app, remove_commas_group3, remove_commas_digits.
  replace (AnalyzeProductsReport.remove_commas (if (round_half_even q <? 0)%Z then "-" else ""))
    with (if (round_half_even q <? 0)%Z then "-"%string else ""%string)
    by (destruct (round_half_even q <? 0)%Z; reflexivity).
  rewrite signed_digits. apply to_float_digits.
Qed.

(** X17.  Reading back the amount text of an issue entry never fails and
    gives the amount rounded half to even to a whole number; an infinite
    or missing amount is read back as it is.  What [generate_report]
    computes with is therefore the rounded amount, not the amount of the
    table. *)
Theorem amount_text_round_trip (x : fnum) :
  AnalyzeProductsReport.to_float
    (AnalyzeProductsReport.remove_commas (AnalyzeProductsReport.format_thousands x))
  = Some (match x with
          | Fin q => of_Z (round_half_even q)
          | _ => x
          end).
Proof.
  destruct x as [q| | |]; try reflexivity.
  apply amount_text_trip.
Qed.

Lemma fgt_of_Z (a b : Z) : fgt (of_Z a) (of_Z b) = (b <? a)%Z.
Proof.
  unfold fgt, fcmp, of_Z, Qccompare. cbn [this Q2Qc].
  rewrite <- Qred_compare. unfold Qcompare, inject_Z. cbn [Qnum Qden].
  rewrite !Z.mul_1_r, Z.ltb_antisym, Z.leb_compare.
  destruct (a ?= b)%Z; reflexivity.
Qed.

(** X18.  The risk level [generate_report] gives a low-margin entry is
    always defined and is decided on the amount rounded to a whole
    number: high risk above 30000, medium risk above 10000, low risk
    otherwise. *)
Theorem risk_level_of_rounded_amount (r : AnalyzeProducts.row) (q : Qc) :
  AnalyzeProducts.amount r = Fin q ->
  AnalyzeProductsReport.risk_level (AnalyzeProductsReport.entry_of r)
  = Some (if (30000 <? round_half_even q)%Z then AnalyzeProductsReport.HighRisk
          else if (10000 <? round_half_even q)%Z then AnalyzeProductsReport.MediumRisk
          else AnalyzeProductsReport.LowRisk).
Proof.
  intros E. unfold AnalyzeProductsReport.risk_level, AnalyzeProductsReport.entry_amount,
    AnalyzeProductsReport.entry_of. cbn [AnalyzeProductsReport.e_amount].
  rewrite E, amount_text_trip. cbn [option_map]. rewrite !fgt_of_Z. reflexivity.
Qed.

Lemma risk_level_of_rounded_amount_witness :
  AnalyzeProductsReport.risk_level (AnalyzeProductsReport.entry_of Samples2.cat_borderline)
  = Some AnalyzeProductsReport.MediumRisk.
Proof.
  rewrite (risk_level_of_rounded_amount Samples2.cat_borderline (Q2Qc (Qmake 300004 10))).
  - reflexivity.
  - reflexivity.
Defined.

(** ** calculate_metrics *)

Lemma notna_Fin (qs : list Qc) : filter notna (map Fin qs) = map Fin qs.
Proof.
  induction qs as [|q t IH]; simpl; [reflexivity|]. rewrite IH. reflexivity.
Qed.

Lemma fold_max_Fin (t : list Qc) :
  forall x, exists M,
    fold_left AnalyzeProductsReport.fmax2 (map Fin t) (Fin x) = Fin M /\
    (x <= M)%Qc /\ Forall (fun q => (q <= M)%Qc) t.
Proof.
  induction t as [|y t IH]; intros x.
  - exists x. split; [reflexivity|]. split; [apply Qcle_refl | constructor].
  - cbn [map fold_left]. unfold AnalyzeProductsReport.fmax2 at 2.
    destruct (fge (Fin x) (Fin y)) eqn:E.
    + apply fge_Fin in E. destruct (IH x) as (M & EM & Hx & Ht).
      exists M. split; [exact EM|]. split; [exact Hx|].
      constructor; [apply (Qcle_trans _ _ _ E Hx) | exact Ht].
    + assert (Hxy : (x <= y)%Qc).
      { destruct (Qclt_le_dec x y) as [H|H]; [apply Qclt_le_weak; exact H|].
        apply fge_Fin in H. congruence. }
      destruct (IH y) as (M & EM & Hy & Ht).
      exists M. split; [exact EM|]. split; [apply (Qcle_trans _ _ _ Hxy Hy)|].
      constructor; assumption.
Qed.

Lemma fold_min_Fin (t : list Qc) :
  forall x, exists m,
    fold_left AnalyzeProductsReport.fmin2 (map Fin t) (Fin x) = Fin m /\
    (m <= x)%Qc /\ Forall (fun q => (m <= q)%Qc) t.
Proof.
  induction t as [|y t IH]; intros x.
  - exists x. split; [reflexivity|]. split; [apply Qcle_refl | constructor].
  - cbn [map fold_left]. unfold AnalyzeProductsReport.fmin2 at 2.
    destruct (fle (Fin x) (Fin y)) eqn:E.
    + apply fle_Fin in E. destruct (IH x) as (m & Em & Hx & Ht).
      exists m. split; [exact Em|]. split; [exact Hx|].
      constructor; [apply (Qcle_trans _ _ _ Hx E) | exact Ht].
    + assert (Hyx : (y <= x)%Qc).
      { destruct (Qclt_le_dec y x) as [H|H]; [apply Qclt_le_weak; exact H|].
        apply fle_Fin in H. congruence. }
      destruct (IH y) as (m & Em & Hy & Ht).
      exists m. split; [exact Em|]. split; [apply (Qcle_trans _ _ _ Hy Hyx)|].
      constructor; assumption.
Qed.

Lemma fold_max_attained (t : list Qc) :
  forall x M,
    fold_left AnalyzeProductsReport.fmax2 (map Fin t) (Fin x) = Fin M -> M = x \/ In M t.
Proof.
  induction t as [|y t IH]; intros x M; cbn [map fold_left].
  - intros [= ->]. left. reflexivity.
  - unfold AnalyzeProductsReport.fmax2 at 2.
    destruct (fge (Fin x) (Fin y)); intros H; apply IH in H;
      destruct H as [->|H]; simpl; auto.
Qed.

Lemma fold_min_attained (t : list Qc) :
  forall x m,
    fold_left AnalyzeProductsReport.fmin2 (map Fin t) (Fin x) = Fin m -> m = x \/ In m t.
Proof.
  induction t as [|y t IH]; intros x m; cbn [map fold_left].
  - intros [= ->]. left. reflexivity.
  - unfold AnalyzeProductsReport.fmin2 at 2.
    destruct (fle (Fin x) (Fin y)); intros H; apply IH in H;
      destruct H as [->|H]; simpl; auto.
Qed.

(** The highest and the lowest value of a column of finite values are
    values of the column and bound every value. *)
Lemma rate_extremes (qs : list Qc) :
  qs <> [] ->
  exists mx mn,
    AnalyzeProductsReport.col_max (map Fin qs) = Fin mx /\
    AnalyzeProductsReport.col_min (map Fin qs) = Fin mn /\
    In mx qs /\ In mn qs /\
    Forall (fun q => (mn <= q)%Qc /\ (q <= mx)%Qc) qs.
Proof.
  intros Hne. destruct qs as [|x t]; [congruence|].
  destruct (fold_max_Fin t x) as (M & EM & HxM & HtM).
  destruct (fold_min_Fin t x) as (m & Em & Hxm & Htm).
  exists M, m.
  split; [unfold AnalyzeProductsReport.col_max; rewrite notna_Fin; exact EM|].
  split; [unfold AnalyzeProductsReport.col_min; rewrite notna_Fin; exact Em|].
  split; [destruct (fold_max_attained t x M EM) as [->|H]; simpl; auto|].
  split; [destruct (fold_min_attained t x m Em) as [->|H]; simpl; auto|].
  constructor; [split; assumption|].
  rewrite Forall_forall in *. intros q Hq. split; [apply Htm | apply HtM]; exact Hq.
Qed.

(** X19.  When the frame has the product-name and the margin-rate column
    and some row with a product name has a finite margin rate, none an
    infinite one, [calculate_metrics] reports a highest and a lowest
    margin rate that are finite, that are one hundred times the margin
    rate of a row with a product name, and that bound one hundred times
    the margin rate of every such row. *)
Theorem metrics_rate_extremes (columns : list string) (df : list Frame.row) :
  AnalyzeProductsReport.has_column columns PriceAnalysis.col_product_name = true ->
  AnalyzeProductsReport.has_column columns PriceAnalysis.col_margin_rate = true ->
  (exists r, In r df /\ r_product_name r <> None /\ is_finite (r_margin_rate r) = true) ->
  Forall (fun r => r_margin_rate r <> PInf /\ r_margin_rate r <> NInf) df ->
  exists m mx mn,
    AnalyzeProductsReport.calculate_metrics columns df = Ok m /\
    AnalyzeProductsReport.max_margin_rate m = Some (Fin mx) /\
    AnalyzeProductsReport.min_margin_rate m = Some (Fin mn) /\
    (mn <= mx)%Qc /\
    (forall r q, In r df -> r_product_name r <> None -> r_margin_rate r = Fin q ->
       (mn <= q * Q2Qc (inject_Z 100))%Qc /\ (q * Q2Qc (inject_Z 100) <= mx)%Qc) /\
    (exists r q, In r df /\ r_product_name r <> None /\ r_margin_rate r = Fin q /\
       mx = (q * Q2Qc (inject_Z 100))%Qc) /\
    (exists r q, In r df /\ r_product_name r <> None /\ r_margin_rate r = Fin q /\
       mn = (q * Q2Qc (inject_Z 100))%Qc).
Proof.
  intros Hname Hrate (r0 & Hr0 & Hn0 & Hf0) Hall.
  unfold AnalyzeProductsReport.calculate_metrics. rewrite Hname, Hrate.
  set (df_clean := filter (fun r => is_some (r_product_name r)) df).
  assert (Hfin : Forall (fun x => is_finite x = true)
                   (filter notna (map r_margin_rate df_clean))).
  { apply Forall_forall. intros x Hx. apply filter_In in Hx. destruct Hx as (Hx & Hna).
    apply in_map_iff in Hx. destruct Hx as (r & <- & Hr).
    apply filter_In in Hr. destruct Hr as (Hr & _).
    rewrite Forall_forall in Hall. destruct (Hall r Hr) as (H1 & H2).
    destruct (r_margin_rate r); try reflexivity; try congruence. discriminate Hna. }
  destruct (all_finite_values _ Hfin) as (qs0 & E0).
  set (pct := fun q : Qc => (q * Q2Qc (inject_Z 100))%Qc).
  assert (Eqs : map (fun x => fmul x (of_Z 100)) (filter notna (map r_margin_rate df_clean))
                = map Fin (map pct qs0)).
  { rewrite E0, !map_map. reflexivity. }
  (* the rates of the rows with a product name *)
  assert (Hrow : forall r q, In r df -> r_product_name r <> None -> r_margin_rate r = Fin q ->
                   In q qs0).
  { intros r q Hr Hn Eq.
    assert (Hin : In (Fin q) (filter notna (map r_margin_rate df_clean))).
    { apply filter_In. split; [|reflexivity]. rewrite <- Eq. apply in_map.
      apply filter_In. split; [exact Hr|].
      destruct (r_product_name r); [reflexivity | congruence]. }
    rewrite E0 in Hin. apply in_map_iff in Hin. destruct Hin as (q' & [= ->] & Hq'). exact Hq'. }
  assert (Hback : forall q, In q qs0 ->
                    exists r, In r df /\ r_product_name r <> None /\ r_margin_rate r = Fin q).
  { intros q Hq.
    assert (Hin : In (Fin q) (filter notna (map r_margin_rate df_clean)))
      by (rewrite E0; apply in_map; exact Hq).
    apply filter_In in Hin. destruct Hin as (Hin & _).
    apply in_map_iff in Hin. destruct Hin as (r & Er & Hr).
    apply filter_In in Hr. destruct Hr as (Hr & Hn).
    exists r. split; [exact Hr|]. split; [exact (is_some_true _ Hn) | exact Er]. }
  assert (Hne : map pct qs0 <> []).
  { destruct (r_margin_rate r0) as [q0| | |] eqn:E; try discriminate Hf0.
    pose proof (Hrow r0 q0 Hr0 Hn0 E) as Hin. destruct qs0; [contradiction | discriminate]. }
  destruct (rate_extremes (map pct qs0) Hne) as (mx & mn & Emx & Emn & Hmx & Hmn & Hb).
  rewrite Forall_forall in Hb.
  eexists. exists mx, mn. split; [reflexivity|].
  cbn [AnalyzeProductsReport.max_margin_rate AnalyzeProductsReport.min_margin_rate].
  fold df_clean. rewrite Eqs, Emx, Emn.
  split; [reflexivity|]. split; [reflexivity|]. split; [|split; [|split]].
  - destruct (Hb mx Hmx) as (H & _). exact H.
  - intros r q Hr Hn Eq. apply (Hb (pct q)). apply in_map. exact (Hrow r q Hr Hn Eq).
  - apply in_map_iff in Hmx. destruct Hmx as (q & <- & Hq).
    destruct (Hback q Hq) as (r & Hr & Hn & Er). exists r, q. auto.
  - apply in_map_iff in Hmn. destruct Hmn as (q & <- & Hq).
    destruct (Hback q Hq) as (r & Hr & Hn & Er). exists r, q. auto.
Qed.

Lemma metrics_rate_extremes_witness :
  exists m mx mn,
    AnalyzeProductsReport.calculate_metrics Samples.all_columns Samples2.frame_high = Ok m /\
    AnalyzeProductsReport.max_margin_rate m = Some (Fin mx) /\
    AnalyzeProductsReport.min_margin_rate m = Some (Fin mn) /\
    (mn <= mx)%Qc.
Proof.
  destruct (metrics_rate_extremes Samples.all_columns Samples2.frame_high)
    as (m & mx & mn & H1 & H2 & H3 & H4 & _).
  - reflexivity.
  - reflexivity.
  - exists (Samples.mk_row (Some "A"%string) (Some "p1"%string) (of_Z 100) (of_Z 20) (ratio 20 100)).
    split; [simpl; auto|]. split; [discriminate | reflexivity].
  - repeat constructor; discriminate.
  - exists m, mx, mn. auto.
Defined.

(** *** Rounding of the rate column *)

Lemma round_half_even_near (n : Z) (d : positive) :
  (- Zpos d <= 2 * (round_half_even (n # d) * Zpos d - n) <= Zpos d)%Z.
Proof.
  unfold round_half_even. cbn [Qnum Qden].
  pose proof (Z.div_mod n (Zpos d) ltac:(lia)) as Hdm.
  pose proof (Z.mod_pos_bound n (Zpos d) ltac:(lia)) as Hmod.
  set (f := (n / Zpos d)%Z) in *. set (r := (n mod Zpos d)%Z) in *.
  assert (Er : (n - f * Zpos d = r)%Z) by lia.
  rewrite Er. clearbody f r.
  assert (HD : (0 < Z.pos d)%Z) by lia. set (D := Z.pos d) in *. clearbody D.
  destruct (Z.compare_spec (2 * r) D) as [E|E|E].
  - destruct (Z.even f); lia.
  - lia.
  - lia.
Qed.

Lemma round_half_even_half (q : Q) :
  (inject_Z (round_half_even q) - (1#2) <= q)%Q /\
  (q <= inject_Z (round_half_even q) + (1#2))%Q.
Proof.
  destruct q as [n d]. pose proof (round_half_even_near n d) as H.
  set (z := round_half_even (n # d)) in *. clearbody z.
  unfold Qminus. unfold Qle, Qplus, Qopp, inject_Z. cbn [Qnum Qden Pos.mul Z.opp].
  rewrite ?Pos2Z.inj_mul. split; lia.
Qed.

Lemma round2_near (x : Qc) :
  exists z : Z,
    round2 (Fin x) = Fin (Q2Qc (z # 100)) /\
    (Q2Qc (z # 100) - Q2Qc (1 # 200) <= x)%Qc /\
    (x <= Q2Qc (z # 100) + Q2Qc (1 # 200))%Qc.
Proof.
  exists (round_half_even (x * inject_Z 100)). split; [reflexivity|].
  pose proof (round_half_even_half (x * inject_Z 100)) as H.
  set (z := round_half_even (x * inject_Z 100)) in *. clearbody z.
  unfold Qcminus. unfold Qcle, Qcplus, Qcopp. cbn [this Q2Qc].
  rewrite !Qred_correct.
  destruct x as [[n d] c]. cbn [this] in *.
  unfold Qminus in *. unfold Qle, Qplus, Qopp, Qmult, inject_Z in *.
  cbn [Qnum Qden Pos.mul Z.opp] in *. rewrite ?Pos2Z.inj_mul in *.
  destruct H as (H1 & H2). split; lia.
Qed.

(** X20.  For every row of the table [analyze_by_category] returns
    whose profit and amount are finite, the amount is positive, the rate
    is a whole number of hundredths, and it differs from the exact
    percentage [profit / amount * 100] by at most half a hundredth. *)
Theorem rate_rounding_error (df : list Frame.row) (r : AnalyzeProducts.row) (p a : Qc) :
  In r (AnalyzeProducts.analyze_by_category df) ->
  AnalyzeProducts.profit r = Fin p ->
  AnalyzeProducts.amount r = Fin a ->
  (0 < a)%Qc /\
  exists z : Z,
    AnalyzeProducts.rate r = Fin (Q2Qc (z # 100)) /\
    (Q2Qc (z # 100) - Q2Qc (1 # 200) <= p / a * Q2Qc (inject_Z 100))%Qc /\
    (p / a * Q2Qc (inject_Z 100) <= Q2Qc (z # 100) + Q2Qc (1 # 200))%Qc.
Proof.
  intros Hr Hp Ea. apply analyze_by_category_In in Hr.
  destruct Hr as ((k & _ & E) & Hpos).
  assert (Hrate : AnalyzeProducts.rate r =
            round2 (fmul (fdiv (AnalyzeProducts.profit r) (AnalyzeProducts.amount r))
                         (of_Z 100))) by (rewrite E; reflexivity).
  rewrite Ea in Hpos.
  assert (Ha : (0 < a)%Qc).
  { unfold fgt, fcmp, of_Z in Hpos.
    destruct (a ?= Q2Qc (inject_Z 0))%Qc eqn:C; try discriminate Hpos.
    apply Qcgt_alt in C. exact C. }
  split; [exact Ha|].
  rewrite Hp, Ea, fdiv_Fin in Hrate.
  - cbn [fmul of_Z] in Hrate.
    destruct (round2_near (p / a * Q2Qc (inject_Z 100))) as (z & Ez & Hlo & Hhi).
    exists z. rewrite Hrate, Ez. auto.
  - intros E0. rewrite E0 in Ha. apply (Qclt_not_le _ _ Ha). apply Qcle_refl.
Qed.

Lemma rate_rounding_error_witness :
  exists row p a, AnalyzeProducts.analyze_by_category Samples2.frame_thirds = [row] /\
    AnalyzeProducts.profit row = Fin p /\
    AnalyzeProducts.amount row = Fin a /\
    (0 < a)%Qc /\
    exists z : Z,
      AnalyzeProducts.rate row = Fin (Q2Qc (z # 100)) /\
      (Q2Qc (z # 100) - Q2Qc (1 # 200) <= p / a * Q2Qc (inject_Z 100))%Qc /\
      (p / a * Q2Qc (inject_Z 100) <= Q2Qc (z # 100) + Q2Qc (1 # 200))%Qc.
Proof.
  eexists. eexists. eexists. split; [reflexivity|].
  split; [reflexivity|]. split; [reflexivity|].
  refine (rate_rounding_error Samples2.frame_thirds _ _ _ _ _ _).
  - left. reflexivity.
  - reflexivity.
  - reflexivity.
Defined.

(** *** The two scripts on one workbook *)

Section TwoScripts.
Variable parse_number : string -> option fnum.

Lemma float_cell_to_numeric (c : cell) (x : fnum) :
  float_cell c = Some x -> PriceAnalysis.to_numeric parse_number c = x.
Proof. destruct c; simpl; congruence. Qed.

Lemma float_row_coerce (x : raw_row) (r : Frame.row) :
  float_row x = Some r -> r = PriceAnalysis.coerce parse_number x.
Proof.
  unfold float_row, PriceAnalysis.coerce.
  destruct (float_cell (x_sales_amount x)) eqn:E1; [|discriminate].
  destruct (float_cell (x_gross_profit x)) eqn:E2; [|discriminate].
  destruct (float_cell (x_margin_rate x)) eqn:E3; [|discriminate].
  destruct (float_cell (x_contribution_value x)) eqn:E4; [|discriminate].
  intros [= <-].
  rewrite (float_cell_to_numeric _ _ E1), (float_cell_to_numeric _ _ E2),
          (float_cell_to_numeric _ _ E3), (float_cell_to_numeric _ _ E4).
  reflexivity.
Qed.

Lemma float_frame_coerce (l : list raw_row) :
  forall df, float_frame l = Some df -> df = map (PriceAnalysis.coerce parse_number) l.
Proof.
  induction l as [|x l IH]; intros df; cbn [float_frame map].
  - congruence.
  - destruct (float_row x) as [r|] eqn:Er; [|discriminate].
    destruct (float_frame l) as [df'|]; [|discriminate].
    intros [= <-]. rewrite (float_row_coerce _ _ Er), (IH df' eq_refl). reflexivity.
Qed.

(** The amounts analyze_products.py adds up for a category are the
    amounts price_analysis.py adds up for it, without the missing ones. *)
Lemma group_amounts_agree (k : string) :
  str_contains AnalyzeProducts.marker_summary k = false ->
  str_contains AnalyzeProducts.marker_total k = false ->
  forall (l : list raw_row) (f : list (option string)),
    map (fun rc => r_sales_amount (fst rc))
      (filter (in_group String.eqb snd k)
         (filter (fun rc => negb (AnalyzeProducts.contains_marker (snd rc)))
            (filter (fun rc => notna (r_sales_amount (fst rc)))
               (filter (fun rc => is_some (r_product_name (fst rc)))
                  (combine (map (PriceAnalysis.coerce parse_number) l) f)))))
    = filter notna
        (map r_sales_amount
           (filter (in_group String.eqb r_category k)
              (map (PriceAnalysis.coerce parse_number)
                 (filter PriceAnalysis.not_summary
                    (filter PriceAnalysis.has_product_name (assign_category l f)))))).
Proof.
  intros Hs Ht. induction l as [|x l IH]; intros f; [reflexivity|].
  destruct f as [|c f]; [reflexivity|].
  cbn [map combine assign_category filter fst snd].
  specialize (IH f).
  unfold PriceAnalysis.has_product_name at 1.
  change (x_product_name (set_category c x)) with (x_product_name x).
  change (r_product_name (PriceAnalysis.coerce parse_number x)) with (x_product_name x).
  destruct (is_some (x_product_name x)); [|exact IH].
  cbn [filter fst snd].
  unfold PriceAnalysis.not_summary at 1.
  change (x_category (set_category c x)) with c.
  destruct c as [s|].
  - destruct (String.eqb k s) eqn:Ek.
    + apply String.eqb_eq in Ek. subst s.
      change (astype_str (Some k)) with k.
      change PriceAnalysis.marker_summary with AnalyzeProducts.marker_summary.
      rewrite Hs. cbn [negb filter map].
      unfold in_group at 2. cbn [r_category PriceAnalysis.coerce set_category x_category].
      rewrite String.eqb_refl. cbn [map filter].
      change (r_sales_amount (PriceAnalysis.coerce parse_number (set_category (Some k) x)))
        with (r_sales_amount (PriceAnalysis.coerce parse_number x)).
      destruct (notna (r_sales_amount (PriceAnalysis.coerce parse_number x))) eqn:En.
      * cbn [filter fst snd]. unfold AnalyzeProducts.contains_marker at 1.
        rewrite Hs, Ht. cbn [orb negb filter].
        unfold in_group at 1. cbn [snd]. rewrite String.eqb_refl.
        cbn [map fst]. f_equal. exact IH.
      * exact IH.
    + assert (Hap : forall t,
                filter (in_group String.eqb snd k)
                  (filter (fun rc => negb (AnalyzeProducts.contains_marker (snd rc)))
                     (filter (fun rc => notna (r_sales_amount (fst rc)))
                        ((PriceAnalysis.coerce parse_number x, Some s) :: t)))
                = filter (in_group String.eqb snd k)
                    (filter (fun rc => negb (AnalyzeProducts.contains_marker (snd rc)))
                       (filter (fun rc => notna (r_sales_amount (fst rc))) t))).
      { intros t. cbn [filter fst snd].
        destruct (notna (r_sales_amount (PriceAnalysis.coerce parse_number x))); [|reflexivity].
        cbn [filter snd].
        destruct (negb (AnalyzeProducts.contains_marker (Some s))); [|reflexivity].
        cbn [filter]. unfold in_group at 1. cbn [snd]. rewrite Ek. reflexivity. }
      cbn [filter fst snd] in Hap. rewrite Hap, IH.
      destruct (negb (str_contains PriceAnalysis.marker_summary (astype_str (Some s))));
        [|reflexivity].
      cbn [map filter].
      change (in_group String.eqb r_category k
                (PriceAnalysis.coerce parse_number (set_category (Some s) x)))
        with (String.eqb k s).
      rewrite Ek. reflexivity.
  - assert (Hap : forall t,
              filter (in_group String.eqb snd k)
                (filter (fun rc => negb (AnalyzeProducts.contains_marker (snd rc)))
                   (filter (fun rc => notna (r_sales_amount (fst rc)))
                      ((PriceAnalysis.coerce parse_number x, None) :: t)))
              = filter (in_group String.eqb snd k)
                  (filter (fun rc => negb (AnalyzeProducts.contains_marker (snd rc)))
                     (filter (fun rc => notna (r_sales_amount (fst rc))) t))).
    { intros t. cbn [filter fst snd].
      destruct (notna (r_sales_amount (PriceAnalysis.coerce parse_number x))); reflexivity. }
    cbn [filter fst snd] in Hap. rewrite Hap, IH.
    destruct (negb (str_contains PriceAnalysis.marker_summary (astype_str None)));
      reflexivity.
Qed.

Lemma filter_notna_twice (l : list fnum) : filter notna (filter notna l) = filter notna l.
Proof.
  induction l as [|x l IH]; [reflexivity|]. cbn [filter].
  destruct (notna x) eqn:E; [|exact IH]. cbn [filter]. rewrite E, IH. reflexivity.
Qed.

(** X21.  On one workbook without texts in its numeric columns the two
    scripts agree on the sales of a category: every row of the table of
    [analyze_by_category] has a row of the same category in the Category
    Summary that price_analysis.py computes from its cleaned table, and
    the two amounts are equal. *)
Theorem category_amounts_agree (l : list raw_row) (df : list Frame.row)
    (r : AnalyzeProducts.row) :
  float_frame l = Some df ->
  In r (AnalyzeProducts.analyze_by_category df) ->
  exists c,
    In c (PriceAnalysis.cat_summary
            (map (PriceAnalysis.coerce parse_number) (PriceAnalysis.clean_rows l))) /\
    Cat.category c = AnalyzeProducts.category r /\
    Cat.sales_amount c = AnalyzeProducts.amount r.
Proof.
  intros Hdf Hr. apply float_frame_coerce in Hdf. subst df.
  destruct (analyze_category_no_marker _ _ Hr) as (Hs & Ht).
  apply analyze_by_category_In in Hr. destruct Hr as ((k & Hk & ->) & _).
  cbn [AnalyzeProducts.agg AnalyzeProducts.category AnalyzeProducts.amount fst snd] in *.
  pose proof (group_amounts_agree k Hs Ht l (ffill (map x_category l))) as G.
  set (cleaned := map (PriceAnalysis.coerce parse_number) (PriceAnalysis.clean_rows l)).
  assert (Eclean : AnalyzeProducts.clean (map (PriceAnalysis.coerce parse_number) l)
            = filter (fun rc => negb (AnalyzeProducts.contains_marker (snd rc)))
                (filter (fun rc => notna (r_sales_amount (fst rc)))
                   (filter (fun rc => is_some (r_product_name (fst rc)))
                      (combine (map (PriceAnalysis.coerce parse_number) l)
                               (ffill (map x_category l)))))).
  { unfold AnalyzeProducts.clean. rewrite map_map. reflexivity. }
  rewrite Eclean in *. rewrite G.
  fold (PriceAnalysis.fill_rows l). fold (PriceAnalysis.clean_rows l). fold cleaned.
  exists (PriceAnalysis.cat_agg (k, rows_of_category cleaned k)).
  split; [|split; [reflexivity|]].
  - apply cat_summary_In. exists k. split; [|reflexivity].
    apply (group_keys_In _ _ _ String.eqb_eq) in Hk. destruct Hk as (rc & Hrc & Hsnd).
    assert (Hin : In (r_sales_amount (fst rc))
              (map (fun rc => r_sales_amount (fst rc))
                 (filter (in_group String.eqb snd k)
                    (filter (fun rc => negb (AnalyzeProducts.contains_marker (snd rc)))
                       (filter (fun rc => notna (r_sales_amount (fst rc)))
                          (filter (fun rc => is_some (r_product_name (fst rc)))
                             (combine (map (PriceAnalysis.coerce parse_number) l)
                                      (ffill (map x_category l))))))))).
    { apply (in_map (fun rc => r_sales_amount (fst rc))). apply filter_In. split; [exact Hrc|].
      apply (in_group_true _ _ String.eqb_eq). exact Hsnd. }
    rewrite G in Hin. apply filter_In in Hin. destruct Hin as (Hin & _).
    apply in_map_iff in Hin. destruct Hin as (y & _ & Hy).
    apply filter_In in Hy. destruct Hy as (Hy & Hg).
    exists y. split; [exact Hy|]. apply (in_group_true _ _ String.eqb_eq). exact Hg.
  - cbn [PriceAnalysis.cat_agg Cat.sales_amount snd]. unfold rows_of_category, sum_skipna.
    rewrite filter_notna_twice. reflexivity.
Qed.

End TwoScripts.

Lemma category_amounts_agree_witness :
  exists r c,
    In r (AnalyzeProducts.analyze_by_category Samples.frame_totals) /\
    In c (PriceAnalysis.cat_summary
            (map (PriceAnalysis.coerce Samples.parse_digits)
                 (PriceAnalysis.clean_rows (rows Samples.sheet_totals)))) /\
    Cat.category c = AnalyzeProducts.category r /\
    Cat.sales_amount c = AnalyzeProducts.amount r.
Proof.
  assert (Hin : { r | In r (AnalyzeProducts.analyze_by_category Samples.frame_totals) }).
  { eexists. left. reflexivity. }
  destruct Hin as [r Hin].
  destruct (category_amounts_agree Samples.parse_digits (rows Samples.sheet_totals)
              Samples.frame_totals r eq_refl Hin) as (c & H1 & H2 & H3).
  exists r, c. auto.
Defined.
